(** * lantz_core.feat: Feat, DictFeat and their instance proxies

    A shallow embedding of [src/lantz_core/feat.py].  Python objects that
    are mutated in place (descriptors, registries, classes) live in an
    explicit store; methods are state transformers that either return or
    raise. *)

From stdpp Require Import gmap strings list fin_maps.
From Stdlib Require Import ZArith.

Set Warnings "-register-all".

Open Scope string_scope.
Open Scope Z_scope.
Open Scope list_scope.

(** ** Python values *)

(** The values a modifier can hold: [None], integers, strings, tuples,
    lists, dictionaries (in insertion order), sets (in iteration order) and
    callables, the latter identified by name. *)
Inductive pyval :=
| PNone
| PInt (z : Z)
| PStr (s : string)
| PTuple (items : list pyval)
| PList (items : list pyval)
| PDict (items : list (pyval * pyval))
| PSet (items : list pyval)
| PFunc (f : string).

Inductive exn :=
| TypeError
| IndexError
| KeyError
| ValueError
| AttributeError (msg : string) (item : string).

(** The result of a call: a returned value or a raised exception. *)
Inductive outcome (A : Type) :=
| Ret (a : A)
| Raise (e : exn).
Arguments Ret {A} a.
Arguments Raise {A} e.

#[global] Instance outcome_ret : MRet outcome := @Ret.
#[global] Instance outcome_bind : MBind outcome := fun A B k m =>
  match m with
  | Ret a => k a
  | Raise e => Raise e
  end.
#[global] Instance outcome_fmap : FMap outcome := fun A B f m =>
  match m with
  | Ret a => Ret (f a)
  | Raise e => Raise e
  end.

Definition nonempty {A} (l : list A) : bool :=
  match l with
  | [] => false
  | _ :: _ => true
  end.

(** [bool(v)], the test of [if v:]. *)
Definition truthy (v : pyval) : bool :=
  match v with
  | PNone => false
  | PInt z => negb (z =? 0)
  | PStr s => negb (String.eqb s "")
  | PTuple l | PList l | PSet l => nonempty l
  | PDict l => nonempty l
  | PFunc _ => true
  end.

Definition chars (s : string) : list pyval :=
  (fun c => PStr (String c EmptyString)) <$> String.list_ascii_of_string s.

(** The items produced by [for x in v] and by [*v]. *)
Definition py_iter (v : pyval) : outcome (list pyval) :=
  match v with
  | PTuple l | PList l | PSet l => Ret l
  | PDict l => Ret (fst <$> l)
  | PStr s => Ret (chars s)
  | PNone | PInt _ | PFunc _ => Raise TypeError
  end.

Definition is_key0 (kv : pyval * pyval) : bool :=
  match fst kv with
  | PInt 0 => true
  | _ => false
  end.

(** [v[0]]. *)
Definition getitem0 (v : pyval) : outcome pyval :=
  match v with
  | PTuple l | PList l =>
      match l with
      | x :: _ => Ret x
      | [] => Raise IndexError
      end
  | PStr s =>
      match chars s with
      | x :: _ => Ret x
      | [] => Raise IndexError
      end
  | PDict l =>
      match List.find is_key0 l with
      | Some kv => Ret (snd kv)
      | None => Raise KeyError
      end
  | PNone | PInt _ | PSet _ | PFunc _ => Raise TypeError
  end.

(** [isinstance(v, (list, tuple))] *)
Definition is_list_or_tuple (v : pyval) : bool :=
  match v with
  | PTuple _ | PList _ => true
  | _ => false
  end.

(** [v is not None] *)
Definition is_not_None (v : pyval) : bool :=
  match v with
  | PNone => false
  | _ => true
  end.

(** ** Processors

    The module [lantz_core.processors] is imported by feat.py but is not
    part of the sources at hand.  A stage is recorded as the call that
    creates it, with the argument feat.py passes. *)

(** [MyRange] applied to the unpacked arguments *)
Inductive MyRange_t :=
| MyRange (args : list pyval).

(** The argument of [range_checker]: one range, or a tuple of ranges. *)
Inductive ranges :=
| OneRange (r : MyRange_t)
| RangeTuple (rs : list MyRange_t).

Inductive stage :=
| to_quantity_converter (units : pyval)
| to_magnitude_converter (units : pyval)
| reverse_mapper_or_checker (values : pyval)
| mapper_or_checker (values : pyval)
| range_checker (r : ranges)
| Processor_func (func : pyval).

(** Modelled from the spec: the class [Processor] of the absent module
    lantz_core.processors; "an ordered sequence of stages; composes into one
    callable applied in stage order".  [Processor()] is the empty sequence,
    [append] adds a stage at the end and [reversed] lists the stages last
    to first. *)
Definition Processor := list stage.

Definition Processor_new : Processor := [].

Definition append (p : Processor) (s : stage) : Processor := p ++ [s].

Definition reversed (p : Processor) : Processor := rev p.

(** ** The construction part of Feat.rebuild (lines 134-157) *)

(** The body of the two [for func in ...] loops. *)
Definition append_func (p : Processor) (func : pyval) : Processor :=
  if is_not_None func then append p (Processor_func func) else p.

Definition rebuild_stages (values units limits get_funcs set_funcs : pyval)
  : outcome (Processor * Processor) :=
  let get_processors := Processor_new in
  let set_processors := Processor_new in
  let '(get_processors, set_processors) :=
    if truthy units
    then (append get_processors (to_quantity_converter units),
          append set_processors (to_magnitude_converter units))
    else (get_processors, set_processors) in
  let '(get_processors, set_processors) :=
    if truthy values
    then (append get_processors (reverse_mapper_or_checker values),
          append set_processors (mapper_or_checker values))
    else (get_processors, set_processors) in
  set_processors ←
    (if truthy limits
     then
       first ← getitem0 limits;
       if is_list_or_tuple first
       then
         ls ← py_iter limits;
         rs ← mapM (fun l => args ← py_iter l; mret (MyRange args)) ls;
         mret (append set_processors (range_checker (RangeTuple rs)))
       else
         args ← py_iter limits;
         mret (append set_processors (range_checker (OneRange (MyRange args))))
     else mret set_processors);
  get_processors ←
    (if truthy get_funcs
     then
       funcs ← py_iter get_funcs;
       mret (foldl append_func get_processors funcs)
     else mret get_processors);
  set_processors ←
    (if truthy set_funcs
     then
       funcs ← py_iter set_funcs;
       mret (foldl append_func set_processors funcs)
     else mret set_processors);
  mret (get_processors, set_processors).

(** ** Running a range stage *)

Section RangeChecker.

(** [value in r] for a range [r = MyRange(...)]; the class is defined in
    the absent module. *)
Variable contains : MyRange_t -> pyval -> bool.

(** Modelled from the spec: the stage built by [range_checker], defined in
    the absent module lantz_core.processors; "append a range-validation
    stage ... If the limits value is a sequence of ranges rather than a
    single range, validation succeeds if the candidate satisfies any range
    in the sequence."  A rejected candidate raises; an accepted one is
    passed on. *)
Definition run_range_checker (r : ranges) (value : pyval) : outcome pyval :=
  match r with
  | OneRange r =>
      if contains r value then Ret value else Raise ValueError
  | RangeTuple rs =>
      if existsb (fun r => contains r value) rs
      then Ret value else Raise ValueError
  end.

End RangeChecker.

(** Modelled from the spec: membership in an integer range, bounds
    included ("for limits = (0, 10), setting 11 fails ...; setting 10
    succeeds"). *)
Definition int_range_contains (r : MyRange_t) (value : pyval) : bool :=
  match r, value with
  | MyRange (PInt lo :: PInt hi :: _), PInt v => (lo <=? v) && (v <=? hi)
  | _, _ => false
  end.

(** ** State and exceptions *)

(** A method that runs on a mutable state [S]: it returns or raises, and
    leaves the state as mutated up to that point. *)
Definition St (S A : Type) : Type := S -> outcome A * S.

#[global] Instance St_ret {S} : MRet (St S) := fun A a s => (Ret a, s).
#[global] Instance St_bind {S} : MBind (St S) := fun A B k m s =>
  match m s with
  | (Ret a, s') => k a s'
  | (Raise e, s') => (Raise e, s')
  end.

Definition get_state {S} : St S S := fun s => (Ret s, s).
Definition modify {S} (f : S -> S) : St S unit := fun s => (Ret tt, f s).
Definition raise {S A} (e : exn) : St S A := fun s => (Raise e, s).
Definition lift {S A} (o : outcome A) : St S A := fun s => (o, s).

(** ** Feat *)

(** The scope of a configuration value: [None] is the class-level default
    ([Class.feat]), [Some i] the owning instance [i]. *)
Definition scope := option nat.

(** What a Config slot holds: a plain value, or a pipeline stored by
    [rebuild]. *)
Inductive cfgval :=
| CVal (v : pyval)
| CProc (p : Processor).

(** A Feat object: the name recorded when it is bound, the raw accessors,
    the names of its Config entries, the Config store (class-level values
    under scope [None], the overrides of instance [i] under [Some i]) and
    its other attributes and methods. *)
Record Feat := mkFeat {
  name : option string;
  fget : pyval;
  fset : pyval;
  _config_keys : list string;
  config : gmap (scope * string) cfgval;
  members : gmap string pyval
}.

(** The five feat modifiers (lines 79-83, tested at lines 122 and 219). *)
Definition modifiers : list string :=
  ["values"; "units"; "limits"; "get_funcs"; "set_funcs"].

(** The Config entries of class Feat, which pimpmyclass collects in
    [_config_keys]: the five declared in its body (lines 79-83) and
    [read_once], the entry of its base class ReadOnceProperty (line 26),
    which the class documents as a parameter beside the five (lines 68-69)
    and counts among its modifiers (line 40).  The guard of [on_config_set]
    (lines 122-123) is there for such a key: the handler is notified of
    every Config entry.  The pipelines [post_get] and [pre_set] are not
    among them: they are attributes of the descriptor that [rebuild] stores
    per scope (lines 159-160). *)
Definition Feat_config_keys : list string :=
  modifiers ++ ["read_once"].

Definition set_name (n : string) (self : Feat) : Feat :=
  mkFeat (Some n) (fget self) (fset self) (_config_keys self)
         (config self) (members self).

Definition store_set (instance : scope) (key : string) (value : cfgval)
    (self : Feat) : Feat :=
  mkFeat (name self) (fget self) (fset self) (_config_keys self)
         (<[(instance, key) := value]> (config self)) (members self).

(** Modelled from the spec: the Modifier Store of pimpmyclass ("per-instance
    key/value configuration ... with class-level defaults and instance-level
    overrides"); a slot never assigned reads as [None]. *)
Definition class_config (self : Feat) (key : string) : cfgval :=
  default (CVal PNone) (config self !! (None, key)).

Definition config_get (self : Feat) (instance : scope) (key : string)
  : cfgval :=
  match instance with
  | None => class_config self key
  | Some i =>
      match config self !! (Some i, key) with
      | Some v => v
      | None => class_config self key
      end
  end.

(** [self.<key>_iget(instance)] for a modifier.  Pipelines are stored under
    [post_get] and [pre_set] only, so a modifier slot holds a plain value. *)
Definition modifier (self : Feat) (instance : scope) (key : string) : pyval :=
  match config_get self instance key with
  | CVal v => v
  | CProc _ => PNone
  end.

(** Feat.rebuild (lines 127-160).  Every exception is raised before the two
    stores.  The stores through [post_get_iset] and [pre_set_iset] do not
    lead back to [rebuild]: neither name passes the guard of
    [on_config_set] (lines 122-123). *)
Definition rebuild (instance : scope) : St Feat unit :=
  self ← get_state;
  let values := modifier self instance "values" in
  let units := modifier self instance "units" in
  let limits := modifier self instance "limits" in
  let get_funcs := modifier self instance "get_funcs" in
  let set_funcs := modifier self instance "set_funcs" in
  ps ← lift (rebuild_stages values units limits get_funcs set_funcs);
  modify (store_set instance "post_get" (CProc (reversed ps.1)));;
  modify (store_set instance "pre_set" (CProc ps.2)).

Definition is_modifier (key : string) : bool :=
  bool_decide (key ∈ modifiers).

(** Feat.on_config_set (lines 110-125).  The handlers of the base classes,
    reached through [super()], are outside the sources and leave the
    descriptor as it is. *)
Definition Feat_on_config_set (instance : scope) (key : string) (value : pyval)
  : St Feat unit :=
  if negb (is_modifier key) then mret tt
  else rebuild instance.

(** Modelled from the spec: [config_set] of pimpmyclass stores the value for
    the scope and calls the change handler ("invoked whenever one of the
    five recognized keys is set (class-level or instance-level)"). *)
Definition config_set (instance : scope) (key : string) (value : pyval)
  : St Feat unit :=
  modify (store_set instance key (CVal value));;
  Feat_on_config_set instance key value.

(** Modelled from the spec: [setattr(feat, key, value)] on a Config
    attribute of a descriptor, which pimpmyclass handles; it is the
    class-level assignment [Class.feat.key = value] ("existing
    sub-descriptors must also be told to rebuild"). *)
Definition py_setattr (key : string) (value : pyval) : St Feat unit :=
  config_set None key value.

(** The methods of a Feat that feat.py names: those the class defines
    (lines 85, 110, 127), the accessors of the modifiers and of the two
    pipelines that [rebuild] calls (lines 128-132 and 159-160), and the
    methods of the Config store that the proxies and DictFeat call on a
    descriptor (lines 203, 242, 259).  The base classes of pimpmyclass give
    a descriptor further members, which are outside the sources; the member
    table is a field of the object, and the theorems about [getattr] hold
    for every table. *)
Definition Feat_methods : gmap string pyval :=
  list_to_map
    [("__set_name__", PFunc "Feat.__set_name__");
     ("on_config_set", PFunc "Feat.on_config_set");
     ("rebuild", PFunc "Feat.rebuild");
     ("values_iget", PFunc "Feat.values_iget");
     ("units_iget", PFunc "Feat.units_iget");
     ("limits_iget", PFunc "Feat.limits_iget");
     ("get_funcs_iget", PFunc "Feat.get_funcs_iget");
     ("set_funcs_iget", PFunc "Feat.set_funcs_iget");
     ("post_get_iset", PFunc "Feat.post_get_iset");
     ("pre_set_iset", PFunc "Feat.pre_set_iset");
     ("config_get", PFunc "Feat.config_get");
     ("config_set", PFunc "Feat.config_set");
     ("config_iter", PFunc "Feat.config_iter")].

(** Modelled from the spec: the constructor [Feat(fget=fget, fset=fset,
    **kwargs)], inherited from pimpmyclass ("cloning the current Modifier
    Set into a fresh Attribute Descriptor"): a new descriptor, not yet bound
    to a name, holding each keyword as the class-level value of its Config
    entry. *)
Definition Feat_init (fget fset : pyval) (kwargs : list (string * pyval))
  : Feat :=
  mkFeat None fget fset Feat_config_keys
         (foldl (fun c kv => <[(None, kv.1) := CVal kv.2]> c) ∅ kwargs)
         Feat_methods.

#[global] Instance Feat_inhabited : Inhabited Feat :=
  populate (Feat_init PNone PNone []).

(** What a proxy hands out: a value of the descriptor as it is, or
    [functools.partial(member, instance)]. *)
Inductive pyobj :=
| Plain (v : cfgval)
| Partial (member : cfgval) (instance : nat).

(** [callable(v)]: functions and pipelines are. *)
Definition callable (v : cfgval) : bool :=
  match v with
  | CVal (PFunc _) => true
  | CProc _ => true
  | CVal _ => false
  end.

(** The two pipeline attributes of a Feat, which [rebuild] stores per
    scope (lines 159-160). *)
Definition pipeline_attrs : list string := ["post_get"; "pre_set"].

(** [getattr(feat, item)], or [None] where [hasattr(feat, item)] is false.
    A Config entry read on the descriptor gives its class-level value, and
    so does a pipeline attribute: the descriptor itself stands for the
    class scope, the one [rebuild()] of line 105 stores to. *)
Definition Feat_getattr (self : Feat) (item : string) : option cfgval :=
  if bool_decide (item ∈ _config_keys self) then Some (class_config self item)
  else if bool_decide (item ∈ pipeline_attrs) then Some (class_config self item)
  else if String.eqb item "name" then (fun n => CVal (PStr n)) <$> name self
  else if String.eqb item "fget" then Some (CVal (fget self))
  else if String.eqb item "fset" then Some (CVal (fset self))
  else CVal <$> members self !! item.

(** ** DictFeat *)

Definition loc := positive.

(** A DictFeat object.  It has the five modifiers as Config entries (lines
    179-183) but no pipeline: its store holds plain values only. *)
Record DictFeat := mkDictFeat {
  d_name : option string;
  d_fget : pyval;
  d_fset : pyval;
  d_config_keys : list string;
  d_config : gmap (scope * string) pyval;
  (** the materialized sub-descriptors, by (owning instance, key), in
      insertion order; each entry refers to a Feat object *)
  _subproperties : list ((nat * pyval) * loc);
  d_members : gmap string pyval
}.

(** The methods of a DictFeat that feat.py names (lines 185, 199, 203, 207,
    278, 295, 298); as for Feat, pimpmyclass adds members that are outside
    the sources. *)
Definition DictFeat_methods : gmap string pyval :=
  list_to_map
    [("__set_name__", PFunc "DictFeat.__set_name__");
     ("build_subproperty", PFunc "DictFeat.build_subproperty");
     ("on_config_set", PFunc "DictFeat.on_config_set");
     ("config_get", PFunc "DictFeat.config_get");
     ("config_set", PFunc "DictFeat.config_set");
     ("config_iter", PFunc "DictFeat.config_iter");
     ("subproperty", PFunc "DictFeat.subproperty")].

#[global] Instance DictFeat_inhabited : Inhabited DictFeat :=
  populate (mkDictFeat None PNone PNone modifiers ∅ [] DictFeat_methods).

Definition d_set_name (n : string) (self : DictFeat) : DictFeat :=
  mkDictFeat (Some n) (d_fget self) (d_fset self) (d_config_keys self)
             (d_config self) (_subproperties self) (d_members self).

Definition d_store_set (instance : scope) (key : string) (value : pyval)
    (self : DictFeat) : DictFeat :=
  mkDictFeat (d_name self) (d_fget self) (d_fset self) (d_config_keys self)
             (<[(instance, key) := value]> (d_config self))
             (_subproperties self) (d_members self).

Definition d_class_config (self : DictFeat) (key : string) : pyval :=
  default PNone (d_config self !! (None, key)).

(** The same Modifier Store as [config_get] above, for a DictFeat. *)
Definition d_config_get (self : DictFeat) (instance : scope) (key : string)
  : pyval :=
  match instance with
  | None => d_class_config self key
  | Some i =>
      match d_config self !! (Some i, key) with
      | Some v => v
      | None => d_class_config self key
      end
  end.

(** [self.config_iter(instance)]: every Config entry with its value for the
    scope. *)
Definition config_iter (self : DictFeat) (instance : scope)
  : list (string * pyval) :=
  (fun key => (key, d_config_get self instance key)) <$> d_config_keys self.

(** DictFeat.build_subproperty (lines 199-205) *)
Definition build_subproperty (self : DictFeat) (key : pyval)
    (fget fset : pyval) (instance : scope) : Feat :=
  let p := Feat_init fget fset (config_iter self instance) in
  p.

Definition DictFeat_getattr (self : DictFeat) (item : string)
  : option cfgval :=
  if bool_decide (item ∈ d_config_keys self)
  then Some (CVal (d_class_config self item))
  else if String.eqb item "name" then (fun n => CVal (PStr n)) <$> d_name self
  else if String.eqb item "fget" then Some (CVal (d_fget self))
  else if String.eqb item "fset" then Some (CVal (d_fset self))
  else CVal <$> d_members self !! item.

(** ** The object store *)

(** The dictionary held in [_lantz_feats] or [_lantz_dictfeats]: its
    entries, and the attribute [__lantz_driver_cls__] when it has been
    set. *)
Record registry := mkRegistry {
  __lantz_driver_cls__ : option string;
  entries : gmap string loc
}.

(** A driver class: its qualified name, the rest of its method resolution
    order (nearest ancestor first) and the two registry attributes when the
    class has them in its own namespace. *)
Record pyclass := mkClass {
  __qualname__ : string;
  mro : list loc;
  _lantz_feats : option loc;
  _lantz_dictfeats : option loc
}.

#[global] Instance registry_inhabited : Inhabited registry :=
  populate (mkRegistry None ∅).
#[global] Instance pyclass_inhabited : Inhabited pyclass :=
  populate (mkClass "" [] None None).

Record world := mkWorld {
  feats : gmap loc Feat;
  dictfeats : gmap loc DictFeat;
  registries : gmap loc registry;
  classes : gmap loc pyclass
}.

Definition set_feats (m : gmap loc Feat) (w : world) : world :=
  mkWorld m (dictfeats w) (registries w) (classes w).
Definition set_dictfeats (m : gmap loc DictFeat) (w : world) : world :=
  mkWorld (feats w) m (registries w) (classes w).
Definition set_registries (m : gmap loc registry) (w : world) : world :=
  mkWorld (feats w) (dictfeats w) m (classes w).
Definition set_classes (m : gmap loc pyclass) (w : world) : world :=
  mkWorld (feats w) (dictfeats w) (registries w) m.

(** Run a method of the Feat object at [l]. *)
Definition at_feat {A} (l : loc) (m : St Feat A) : St world A := fun w =>
  let '(r, f) := m (feats w !!! l) in
  (r, set_feats (<[l := f]> (feats w)) w).

Definition at_dictfeat {A} (l : loc) (m : St DictFeat A) : St world A :=
  fun w =>
  let '(r, d) := m (dictfeats w !!! l) in
  (r, set_dictfeats (<[l := d]> (dictfeats w)) w).

(** [for x in l: body(x)] *)
Fixpoint for_in {S A} (l : list A) (body : A -> St S unit) : St S unit :=
  match l with
  | [] => mret tt
  | x :: l' => body x;; for_in l' body
  end.

(** DictFeat.on_config_set (lines 207-223); [self] is the DictFeat object.
    As for Feat, the handlers reached through [super()] are outside the
    sources. *)
Definition DictFeat_on_config_set (self : loc) (instance : scope)
    (key : string) (value : pyval) : St world unit :=
  if negb (is_modifier key) then mret tt
  else
    w ← get_state;
    for_in (_subproperties (dictfeats w !!! self))
           (fun entry => at_feat entry.2 (py_setattr key value)).

(** Modelled from the spec: [config_set] of pimpmyclass, as for Feat. *)
Definition DictFeat_config_set (self : loc) (instance : scope)
    (key : string) (value : pyval) : St world unit :=
  at_dictfeat self (modify (d_store_set instance key value));;
  DictFeat_on_config_set self instance key value.

(** ** Binding a descriptor to its owner *)

Inductive registry_attr :=
| attr_lantz_feats
| attr_lantz_dictfeats.

Definition attr_name (a : registry_attr) : string :=
  match a with
  | attr_lantz_feats => "_lantz_feats"
  | attr_lantz_dictfeats => "_lantz_dictfeats"
  end.

Definition own_registry (a : registry_attr) (c : pyclass) : option loc :=
  match a with
  | attr_lantz_feats => _lantz_feats c
  | attr_lantz_dictfeats => _lantz_dictfeats c
  end.

Definition set_own_registry (a : registry_attr) (d : loc) (c : pyclass)
  : pyclass :=
  match a with
  | attr_lantz_feats =>
      mkClass (__qualname__ c) (mro c) (Some d) (_lantz_dictfeats c)
  | attr_lantz_dictfeats =>
      mkClass (__qualname__ c) (mro c) (_lantz_feats c) (Some d)
  end.

(** [owner.<attr>]: the class's own attribute, or else that of the nearest
    class of its resolution order that has one. *)
Definition class_getattr (a : registry_attr) (owner : loc) : St world loc :=
  fun w =>
  match omap (fun c => own_registry a (classes w !!! c))
             (owner :: mro (classes w !!! owner)) with
  | d :: _ => (Ret d, w)
  | [] => (Raise (AttributeError "type object has no attribute" (attr_name a)), w)
  end.

(** [owner.<attr> = d] *)
Definition class_setattr (a : registry_attr) (owner d : loc) : St world unit :=
  modify (fun w =>
    set_classes (<[owner := set_own_registry a d (classes w !!! owner)]>
                   (classes w)) w).

(** [d.__class__( **d )]: a new dictionary with the entries of [d]. *)
Definition copy_registry (d : loc) : St world loc := fun w =>
  let d' := fresh (dom (registries w)) in
  (Ret d',
   set_registries
     (<[d' := mkRegistry None (entries (registries w !!! d))]> (registries w))
     w).

(** [setattr(d, '__lantz_driver_cls__', qualname)] *)
Definition set_driver_cls (d : loc) (qualname : string) : St world unit :=
  modify (fun w =>
    set_registries
      (<[d := mkRegistry (Some qualname) (entries (registries w !!! d))]>
         (registries w)) w).

(** [d[name] = self] *)
Definition registry_setitem (d : loc) (name : string) (self : loc)
  : St world unit :=
  modify (fun w =>
    let r := registries w !!! d in
    set_registries
      (<[d := mkRegistry (__lantz_driver_cls__ r) (<[name := self]> (entries r))]>
         (registries w)) w).

(** Lines 96-103 of Feat.__set_name__, which DictFeat.__set_name__ repeats
    at lines 190-197 for [_lantz_dictfeats]. *)
Definition register (a : registry_attr) (self owner : loc) (name : string)
  : St world unit :=
  d ← class_getattr a owner;
  w ← get_state;
  let qualname := __qualname__ (classes w !!! owner) in
  (if bool_decide (__lantz_driver_cls__ (registries w !!! d) ≠ Some qualname)
   then
     d ← copy_registry d;
     set_driver_cls d qualname;;
     class_setattr a owner d
   else mret tt);;
  d ← class_getattr a owner;
  registry_setitem d name self.

(** Feat.__set_name__ (lines 85-105); [super().__set_name__] records the
    name on the descriptor. *)
Definition Feat___set_name__ (self owner : loc) (name : string)
  : St world unit :=
  at_feat self (modify (set_name name));;
  register attr_lantz_feats self owner name;;
  at_feat self (rebuild None).

(** DictFeat.__set_name__ (lines 185-197) *)
Definition DictFeat___set_name__ (self owner : loc) (name : string)
  : St world unit :=
  at_dictfeat self (modify (d_set_name name));;
  register attr_lantz_dictfeats self owner name.

(** ** Instance proxies *)

Module FeatProxy.

Record t := mk {
  instance : nat;
  proxied : loc
}.

(** FeatProxy.__getattr__ (lines 239-251) *)
Definition __getattr__ (self : t) (item : string) : St world pyobj :=
  w ← get_state;
  let feat := feats w !!! proxied self in
  if bool_decide (item ∈ _config_keys feat)
  then mret (Plain (config_get feat (Some (instance self)) item))
  else
    match Feat_getattr feat item with
    | Some out =>
        if callable out
        then mret (Partial out (instance self))
        else mret (Plain out)
    | None =>
        raise (AttributeError
                 "Cannot get %s in %s. Invalid Feat method, property or modifier"
                 item)
    end.

(** FeatProxy.__setattr__ (lines 253-259) *)
Definition __setattr__ (self : t) (item : string) (value : pyval)
  : St world unit :=
  w ← get_state;
  let feat := feats w !!! proxied self in
  if negb (bool_decide (item ∈ _config_keys feat))
  then raise (AttributeError "Cannot set %s in %s. Invalid Feat modifier" item)
  else at_feat (proxied self) (config_set (Some (instance self)) item value).

End FeatProxy.

Module DictFeatProxy.

Record t := mk {
  instance : nat;
  proxied : loc
}.

(** DictFeatProxy.__getattr__ (lines 275-287) *)
Definition __getattr__ (self : t) (item : string) : St world pyobj :=
  w ← get_state;
  let dictfeat := dictfeats w !!! proxied self in
  if bool_decide (item ∈ d_config_keys dictfeat)
  then mret (Plain (CVal (d_config_get dictfeat (Some (instance self)) item)))
  else
    match DictFeat_getattr dictfeat item with
    | Some out =>
        if callable out
        then mret (Partial out (instance self))
        else mret (Plain out)
    | None =>
        raise (AttributeError
                 "Cannot get %s in %s. Invalid DictFeat method, property or modifier"
                 item)
    end.

(** DictFeatProxy.__setattr__ (lines 289-295) *)
Definition __setattr__ (self : t) (item : string) (value : pyval)
  : St world unit :=
  w ← get_state;
  let dictfeat := dictfeats w !!! proxied self in
  if negb (bool_decide (item ∈ d_config_keys dictfeat))
  then raise (AttributeError "Cannot set %s in %s. Invalid DictFeat modifier" item)
  else DictFeat_config_set (proxied self) (Some (instance self)) item value.

End DictFeatProxy.

(** ** The construction order, as the specification words it *)

(** Step 1: "If units is set: append a unit-normalizing stage to the read
    pipeline and a unit-denormalizing stage to the write pipeline."  A
    modifier is set when Python takes it for true: it is neither [None]
    nor empty. *)
Definition spec_units_read (units : pyval) : list stage :=
  if truthy units then [to_quantity_converter units] else [].
Definition spec_units_write (units : pyval) : list stage :=
  if truthy units then [to_magnitude_converter units] else [].

(** Step 2: "If values is set: append a reverse-mapping/validation stage to
    the read pipeline and a forward-mapping/validation stage to the write
    pipeline." *)
Definition spec_values_read (values : pyval) : list stage :=
  if truthy values then [reverse_mapper_or_checker values] else [].
Definition spec_values_write (values : pyval) : list stage :=
  if truthy values then [mapper_or_checker values] else [].

(** Step 3: the limits stage, on the write side only: a tuple of ranges
    when the first element of limits is a list or a tuple, one range
    otherwise. *)
Definition spec_limits_write (limits : pyval) : outcome (list stage) :=
  if truthy limits
  then
    first ← getitem0 limits;
    if is_list_or_tuple first
    then
      ls ← py_iter limits;
      rs ← mapM (fun l => args ← py_iter l; mret (MyRange args)) ls;
      mret [range_checker (RangeTuple rs)]
    else
      args ← py_iter limits;
      mret [range_checker (OneRange (MyRange args))]
  else mret [].

(** Step 4: "Append any additional get_funcs/set_funcs, in the order
    supplied, skipping any entry that is absent/null." *)
Definition spec_funcs (funcs : pyval) : outcome (list stage) :=
  if truthy funcs
  then fs ← py_iter funcs; mret (Processor_func <$> List.filter is_not_None fs)
  else mret [].

Definition is_range_stage (s : stage) : bool :=
  match s with
  | range_checker _ => true
  | _ => false
  end.

(** [v] can be traversed by [for] and unpacked by [*]. *)
Definition iterable (v : pyval) : Prop := exists l, py_iter v = Ret l.

(** A limits modifier of the documented kind ("limits : tuple"): a non-empty
    tuple or list which, when its first element is a list or tuple, holds
    only elements that can be unpacked. *)
Definition limits_well_formed (limits : pyval) : Prop :=
  exists first items,
    (limits = PTuple (first :: items) \/ limits = PList (first :: items)) /\
    (is_list_or_tuple first = true -> Forall iterable (first :: items)).

(** A get_funcs or set_funcs modifier of the documented kind ("iterable of
    callables"): unset, or something [for] can traverse. *)
Definition funcs_well_formed (funcs : pyval) : Prop :=
  truthy funcs = true -> iterable funcs.

(** ** Concrete objects used to run the code *)

(** A descriptor as a driver declares it, [Feat(units='V')], held at
    location 10, after its class-level [rebuild()]. *)
Definition ex_feat : Feat :=
  Feat_init (PFunc "get_x") (PFunc "set_x") [("units", PStr "V")].

Definition ex_world : world :=
  (at_feat 10%positive (rebuild None)
     (mkWorld {[ 10%positive := ex_feat ]} ∅ ∅ ∅)).2.

(** The proxy of instance 1 for that descriptor. *)
Definition ex_proxy : FeatProxy.t := FeatProxy.mk 1 10%positive.

(** The same world after [proxy.units = 'mV'] on instance 1. *)
Definition ex_world_mV : world :=
  (FeatProxy.__setattr__ ex_proxy "units" (PStr "mV") ex_world).2.

(** A descriptor declared with its sixth Config entry given,
    [Feat(units='V', read_once=False)], at location 10 after its
    class-level [rebuild()]; Python's [False] and [True] are the integers 0
    and 1. *)
Definition ex_feat_once : Feat :=
  Feat_init (PFunc "get_x") (PFunc "set_x")
    [("units", PStr "V"); ("read_once", PInt 0)].

Definition ex_world_once : world :=
  (at_feat 10%positive (rebuild None)
     (mkWorld {[ 10%positive := ex_feat_once ]} ∅ ∅ ∅)).2.

(** The same world after [proxy.read_once = True] on instance 1. *)
Definition ex_world_once_set : world :=
  (FeatProxy.__setattr__ ex_proxy "read_once" (PInt 1) ex_world_once).2.

(** The five modifiers of a descriptor for a scope, as [rebuild] reads them
    (lines 128-132), and the sequences [rebuild] constructs from them. *)
Definition modifier_set (self : Feat) (instance : scope)
  : pyval * pyval * pyval * pyval * pyval :=
  (modifier self instance "values", modifier self instance "units",
   modifier self instance "limits", modifier self instance "get_funcs",
   modifier self instance "set_funcs").

Definition stages_of (ms : pyval * pyval * pyval * pyval * pyval)
  : outcome (Processor * Processor) :=
  let '(values, units, limits, get_funcs, set_funcs) := ms in
  rebuild_stages values units limits get_funcs set_funcs.

(** An indexed descriptor at location 5 with one materialized
    sub-descriptor for key 'a' of instance 1 (location 20) and one for key
    'a' of instance 2 (location 21), both built by [build_subproperty] and
    rebuilt at class level. *)
Definition ex_dictfeat : DictFeat :=
  mkDictFeat (Some "ch") (PFunc "get_ch") (PFunc "set_ch") modifiers ∅
    [((1%nat, PStr "a"), 20%positive); ((2%nat, PStr "a"), 21%positive)]
    DictFeat_methods.

Definition ex_subfeat (instance : nat) : Feat :=
  (rebuild None
     (build_subproperty ex_dictfeat (PStr "a") (PFunc "get_ch_a")
        (PFunc "set_ch_a") (Some instance))).2.

Definition ex_dict_world : world :=
  mkWorld {[ 20%positive := ex_subfeat 1; 21%positive := ex_subfeat 2 ]}
          {[ 5%positive := ex_dictfeat ]} ∅ ∅.

Definition ex_dict_proxy : DictFeatProxy.t := DictFeatProxy.mk 1 5%positive.

(** Three classes: the framework base (class 1, qualified name "Base") with
    an empty, untagged [_lantz_feats] at location 1; a driver (class 2,
    qualified name "Driver"); and a driver derived from it in another
    module under the same name (class 3, qualified name "Driver").  Two
    descriptors, at locations 10 and 11. *)
Definition ex_classes : world :=
  mkWorld {[ 10%positive := Feat_init (PFunc "get_x") (PFunc "set_x") [];
             11%positive := Feat_init (PFunc "get_x2") (PFunc "set_x2")
                              [("units", PStr "V")] ]}
          ∅
          {[ 1%positive := mkRegistry None ∅ ]}
          {[ 1%positive := mkClass "Base" [] (Some 1%positive) None;
             2%positive := mkClass "Driver" [1%positive] None None;
             3%positive := mkClass "Driver" [2%positive; 1%positive] None None ]}.

(** The parent class declares [x = Feat()] ... *)
Definition ex_parent_bound : world :=
  (Feat___set_name__ 10%positive 2%positive "x" ex_classes).2.

(** ... and the derived class overrides it with [x = Feat(units='V')]. *)
Definition ex_child_bound : world :=
  (Feat___set_name__ 11%positive 3%positive "x" ex_parent_bound).2.

(** The framework base (class 1) with an empty, untagged [_lantz_feats] at
    location 1 and an empty, untagged [_lantz_dictfeats] at location 2, a
    driver derived from it (class 2), and an indexed descriptor at
    location 5 that the driver declares, [ch = DictFeat(units='V')], not
    yet bound. *)
Definition ex_dict_classes : world :=
  mkWorld ∅
          {[ 5%positive :=
               mkDictFeat None (PFunc "get_ch") (PFunc "set_ch") modifiers
                 {[ (None, "units") := PStr "V" ]} [] DictFeat_methods ]}
          {[ 1%positive := mkRegistry None ∅; 2%positive := mkRegistry None ∅ ]}
          {[ 1%positive := mkClass "Base" [] (Some 1%positive) (Some 2%positive);
             2%positive := mkClass "Driver" [1%positive] None None ]}.

(** The registry a class sees as [cls._lantz_feats]. *)
Definition lantz_feats_of (cls : loc) (w : world) : option registry :=
  match (class_getattr attr_lantz_feats cls w).1 with
  | Ret d => registries w !! d
  | Raise _ => None
  end.

(** The descriptor a class has registered under a name. *)
Definition registered (cls : loc) (name : string) (w : world) : option loc :=
  lantz_feats_of cls w ≫= fun r => entries r !! name.

(** A method that leaves every Feat and DictFeat object as it is. *)
Definition keeps_descriptors {A} (m : St world A) : Prop :=
  forall w, feats (m w).2 = feats w /\ dictfeats (m w).2 = dictfeats w.

(** The sub-descriptor [f] can be rebuilt once it holds [value] under
    [key] at class level. *)
Definition rebuildable (key : string) (value : pyval) (f : Feat) : Prop :=
  exists ps,
    stages_of (modifier_set (store_set None key (CVal value) f) None) = Ret ps.

(** The sub-descriptor [f] holds [value] under [key] at class level and its
    class-level pipelines are those of its class-level modifiers. *)
Definition updated (key : string) (value : pyval) (f : Feat) : Prop :=
  class_config f key = CVal value /\
  exists gp sp,
    stages_of (modifier_set f None) = Ret (gp, sp) /\
    class_config f "post_get" = CProc (rev gp) /\
    class_config f "pre_set" = CProc sp.

(** The construction of [rebuild] for a scope raises [e]. *)
Definition stages_of_raises (instance : scope) (self : Feat) (e : exn) : Prop :=
  rebuild_stages (modifier self instance "values")
    (modifier self instance "units") (modifier self instance "limits")
    (modifier self instance "get_funcs") (modifier self instance "set_funcs")
  = Raise e.

(** * Theorems *)

(** ** The error monad *)

Lemma outcome_bind_Ret {A B} (k : A -> outcome B) (a : A) :
  (Ret a ≫= k) = k a.
Proof. reflexivity. Qed.

Lemma outcome_bind_inv {A B} (k : A -> outcome B) (m : outcome A) (b : B) :
  (m ≫= k) = Ret b -> exists a, m = Ret a /\ k a = Ret b.
Proof. destruct m as [a|e]; simpl; [eauto | discriminate]. Qed.

Lemma mapM_Ret_Forall {A B} (f : A -> outcome B) (l : list A) :
  Forall (fun x => exists y, f x = Ret y) l -> exists ys, mapM f l = Ret ys.
Proof.
  induction 1 as [|x l [y Hy] _ [ys IH]]; simpl.
  - by exists [].
  - exists (y :: ys). by rewrite Hy, outcome_bind_Ret, IH.
Qed.

(** ** The two loops of rebuild *)

Lemma foldl_append_func (funcs : list pyval) (p : Processor) :
  foldl append_func p funcs
  = p ++ (Processor_func <$> List.filter is_not_None funcs).
Proof.
  revert p. induction funcs as [|func funcs IH]; intros p; simpl.
  - by rewrite app_nil_r.
  - rewrite IH. unfold append_func.
    destruct (is_not_None func); simpl; [|done].
    unfold append. by rewrite <- app_assoc.
Qed.

Lemma rebuild_stages_closed_form values units limits get_funcs set_funcs :
  rebuild_stages values units limits get_funcs set_funcs =
    lim ← spec_limits_write limits;
    gf ← spec_funcs get_funcs;
    sf ← spec_funcs set_funcs;
    mret (spec_units_read units ++ spec_values_read values ++ gf,
          spec_units_write units ++ spec_values_write values ++ lim ++ sf).
Proof.
  unfold rebuild_stages, spec_limits_write, spec_funcs, spec_units_read,
    spec_units_write, spec_values_read, spec_values_write, Processor_new,
    append.
  destruct (truthy units), (truthy values); simpl;
    (destruct (truthy limits); simpl;
     [ destruct (getitem0 limits) as [first|e]; simpl; [|done];
       destruct (is_list_or_tuple first); simpl;
       destruct (py_iter limits) as [ls|e]; simpl; try done;
       try (destruct (mapM _ ls) as [rs|e]; simpl; [|done])
     | ]);
    (destruct (truthy get_funcs); simpl;
     [ destruct (py_iter get_funcs) as [gfs|e]; simpl; [|done] | ]);
    (destruct (truthy set_funcs); simpl;
     [ destruct (py_iter set_funcs) as [sfs|e]; simpl; [|done] | ]);
    rewrite ?foldl_append_func, ?app_nil_r; simpl;
    rewrite <- ?app_assoc; reflexivity.
Qed.

Lemma filter_range_funcs (funcs : list pyval) :
  List.filter is_range_stage (Processor_func <$> funcs) = [].
Proof. induction funcs as [|f funcs IH]; simpl; done. Qed.

Lemma spec_funcs_no_range (funcs : pyval) (stages : list stage) :
  spec_funcs funcs = Ret stages -> List.filter is_range_stage stages = [].
Proof.
  unfold spec_funcs. destruct (truthy funcs); simpl.
  - destruct (py_iter funcs) as [fs|e]; simpl; [|discriminate].
    intros [= <-]. apply filter_range_funcs.
  - by intros [= <-].
Qed.

Lemma spec_funcs_returns (funcs : pyval) :
  funcs_well_formed funcs -> exists stages, spec_funcs funcs = Ret stages.
Proof.
  unfold funcs_well_formed, spec_funcs. intros Hwf.
  destruct (truthy funcs); simpl; [|by eexists].
  destruct Hwf as [fs ->]; [done|]. simpl. by eexists.
Qed.

Lemma spec_limits_write_returns (limits : pyval) :
  limits_well_formed limits -> exists stages, spec_limits_write limits = Ret stages.
Proof.
  intros (first & items & Hshape & Hall). unfold spec_limits_write.
  assert (truthy limits = true) as -> by (by destruct Hshape as [-> | ->]).
  assert (getitem0 limits = Ret first) as -> by (by destruct Hshape as [-> | ->]).
  assert (py_iter limits = Ret (first :: items)) as Hiter
    by (by destruct Hshape as [-> | ->]).
  rewrite outcome_bind_Ret, Hiter.
  destruct (is_list_or_tuple first); rewrite outcome_bind_Ret; [|by eexists].
  destruct (mapM_Ret_Forall (fun l => args ← py_iter l; mret (MyRange args))
              (first :: items)) as [rs Hrs].
  - eapply Forall_impl; [by apply Hall|].
    intros l [args Hargs]. exists (MyRange args). by rewrite Hargs.
  - rewrite Hrs. by eexists.
Qed.

(** rebuild reaches its two stores whenever the modifiers are of the
    documented kinds. *)
Lemma rebuild_stages_returns values units limits get_funcs set_funcs :
  truthy limits = false \/ limits_well_formed limits ->
  funcs_well_formed get_funcs ->
  funcs_well_formed set_funcs ->
  exists gp sp,
    rebuild_stages values units limits get_funcs set_funcs = Ret (gp, sp).
Proof.
  intros Hlim Hget Hset. rewrite rebuild_stages_closed_form.
  destruct (spec_funcs_returns _ Hget) as [gf ->].
  destruct (spec_funcs_returns _ Hset) as [sf ->].
  assert (exists lim, spec_limits_write limits = Ret lim) as [lim ->].
  { destruct Hlim as [Hfalse | Hwf]; [|by apply spec_limits_write_returns].
    unfold spec_limits_write. rewrite Hfalse. by eexists. }
  simpl. by do 2 eexists.
Qed.

(** ** C1 *)

(** C1: for every modifier set, Feat.rebuild builds its two pipelines in a
    fixed order: first the units stages (read: to_quantity_converter,
    write: to_magnitude_converter) if units is set, then the values stages
    (read: reverse_mapper_or_checker, write: mapper_or_checker) if values is
    set, then the limits stage on the write side only, and last the entries
    of get_funcs on the read side and of set_funcs on the write side, in
    the order supplied and without the entries that are None.  The
    construction raises exactly when the limits stage or one of the two
    traversals raises. *)
Theorem rebuild_construction_order values units limits get_funcs set_funcs :
  rebuild_stages values units limits get_funcs set_funcs =
    lim ← spec_limits_write limits;
    gf ← spec_funcs get_funcs;
    sf ← spec_funcs set_funcs;
    mret (spec_units_read units ++ spec_values_read values ++ gf,
          spec_units_write units ++ spec_values_write values ++ lim ++ sf).
Proof. apply rebuild_stages_closed_form. Qed.

Example rebuild_stages_all_set :
  rebuild_stages (PDict [(PStr "low", PInt 1); (PStr "high", PInt 2)])
    (PStr "V") (PTuple [PInt 0; PInt 10])
    (PList [PFunc "f"; PNone; PFunc "g"]) (PTuple [PNone; PFunc "h"])
  = Ret ([to_quantity_converter (PStr "V");
          reverse_mapper_or_checker
            (PDict [(PStr "low", PInt 1); (PStr "high", PInt 2)]);
          Processor_func (PFunc "f"); Processor_func (PFunc "g")],
         [to_magnitude_converter (PStr "V");
          mapper_or_checker
            (PDict [(PStr "low", PInt 1); (PStr "high", PInt 2)]);
          range_checker (OneRange (MyRange [PInt 0; PInt 10]));
          Processor_func (PFunc "h")]).
Proof. reflexivity. Qed.

(** Empty values count as unset: [if values:] is false for [{}]. *)
Example rebuild_stages_empty_modifiers :
  rebuild_stages (PDict []) (PStr "") (PTuple []) (PList []) PNone
  = Ret ([], []).
Proof. reflexivity. Qed.

(** A limits value that cannot be indexed makes rebuild raise. *)
Example rebuild_stages_int_limits :
  rebuild_stages PNone PNone (PInt 5) PNone PNone = Raise TypeError.
Proof. reflexivity. Qed.

(** ** C2 *)

Lemma rebuild_unfold (instance : scope) (self : Feat) :
  rebuild instance self =
    match rebuild_stages (modifier self instance "values")
            (modifier self instance "units") (modifier self instance "limits")
            (modifier self instance "get_funcs")
            (modifier self instance "set_funcs") with
    | Ret ps =>
        (Ret tt,
         store_set instance "pre_set" (CProc ps.2)
           (store_set instance "post_get" (CProc (reversed ps.1)) self))
    | Raise e => (Raise e, self)
    end.
Proof.
  unfold rebuild, mbind, St_bind, get_state, lift, modify.
  by destruct (rebuild_stages _ _ _ _ _).
Qed.

Lemma config_get_store_set_eq instance key value self :
  config_get (store_set instance key value self) instance key = value.
Proof.
  unfold config_get, class_config, store_set; destruct instance; simpl;
    by rewrite lookup_insert_eq.
Qed.

Lemma config_get_store_set_ne instance key key' value self :
  key <> key' ->
  config_get (store_set instance key value self) instance key'
  = config_get self instance key'.
Proof.
  intros Hne. unfold config_get, class_config, store_set.
  destruct instance; simpl; rewrite !lookup_insert_ne; congruence.
Qed.

Lemma head_rev_last {A} (l : list A) : head (rev l) = last l.
Proof.
  induction l as [|x l _] using rev_ind; [done|].
  by rewrite rev_app_distr, last_snoc.
Qed.

Lemma rebuild_raises_unchanged (instance : scope) (self : Feat) (e : exn) :
  stages_of_raises instance self e ->
  rebuild instance self = (Raise e, self).
Proof. unfold stages_of_raises. rewrite rebuild_unfold. by intros ->. Qed.

(** C2: after a rebuild for a scope, the read pipeline stored for that scope
    (post_get) is the constructed read sequence reversed, so that the stage
    appended last comes first, and the stored write pipeline (pre_set) is
    the constructed write sequence in construction order. *)
Theorem rebuild_stored_order (instance : scope) (self : Feat)
    (gp sp : Processor) :
  rebuild_stages (modifier self instance "values")
    (modifier self instance "units") (modifier self instance "limits")
    (modifier self instance "get_funcs") (modifier self instance "set_funcs")
  = Ret (gp, sp) ->
  exists self',
    rebuild instance self = (Ret tt, self') /\
    config_get self' instance "post_get" = CProc (rev gp) /\
    head (rev gp) = last gp /\
    config_get self' instance "pre_set" = CProc sp.
Proof.
  intros Hbuild. rewrite rebuild_unfold, Hbuild. eexists. split; [done|].
  simpl. split; [|split].
  - rewrite config_get_store_set_ne by done.
    by rewrite config_get_store_set_eq.
  - apply head_rev_last.
  - by rewrite config_get_store_set_eq.
Qed.

Lemma rebuild_stored_order_witness :
  exists self',
    rebuild (Some 1%nat)
      (store_set None "get_funcs" (CVal (PList [PFunc "f"; PNone; PFunc "g"]))
         (store_set (Some 1%nat) "units" (CVal (PStr "V"))
            (Feat_init PNone PNone [])))
    = (Ret tt, self') /\
    config_get self' (Some 1%nat) "post_get"
    = CProc [Processor_func (PFunc "g"); Processor_func (PFunc "f");
             to_quantity_converter (PStr "V")] /\
    head [Processor_func (PFunc "g"); Processor_func (PFunc "f");
          to_quantity_converter (PStr "V")]
    = last [to_quantity_converter (PStr "V"); Processor_func (PFunc "f");
            Processor_func (PFunc "g")] /\
    config_get self' (Some 1%nat) "pre_set"
    = CProc [to_magnitude_converter (PStr "V")].
Proof.
  apply (rebuild_stored_order (Some 1%nat)
           (store_set None "get_funcs" (CVal (PList [PFunc "f"; PNone; PFunc "g"]))
              (store_set (Some 1%nat) "units" (CVal (PStr "V"))
                 (Feat_init PNone PNone [])))
           [to_quantity_converter (PStr "V"); Processor_func (PFunc "f");
            Processor_func (PFunc "g")]
           [to_magnitude_converter (PStr "V")]).
  vm_compute. reflexivity.
Defined.

(** ** C5 *)

Lemma spec_units_read_no_range units :
  List.filter is_range_stage (spec_units_read units) = [].
Proof. unfold spec_units_read. by destruct (truthy units). Qed.

Lemma spec_units_write_no_range units :
  List.filter is_range_stage (spec_units_write units) = [].
Proof. unfold spec_units_write. by destruct (truthy units). Qed.

Lemma spec_values_read_no_range values :
  List.filter is_range_stage (spec_values_read values) = [].
Proof. unfold spec_values_read. by destruct (truthy values). Qed.

Lemma spec_values_write_no_range values :
  List.filter is_range_stage (spec_values_write values) = [].
Proof. unfold spec_values_write. by destruct (truthy values). Qed.

Lemma run_range_checker_one contains r value :
  run_range_checker contains (OneRange r) value = Ret value
  <-> contains r value = true.
Proof. simpl. destruct (contains r value); split; (done || discriminate). Qed.

Lemma run_range_checker_any contains rs value :
  run_range_checker contains (RangeTuple rs) value = Ret value
  <-> exists r, r ∈ rs /\ contains r value = true.
Proof.
  simpl. destruct (existsb _ rs) eqn:Hex.
  - split; [intros _|done].
    apply existsb_exists in Hex as (r & Hin & Hr).
    exists r. by rewrite list_elem_of_In.
  - split; [discriminate|]. intros (r & Hin & Hr).
    assert (existsb (fun r => contains r value) rs = true) as Htrue
      by (apply existsb_exists; exists r; by rewrite <- list_elem_of_In).
    congruence.
Qed.

(** C5: when limits is set, rebuild returns for every limits of the
    documented kind, and whenever it returns the read sequence holds no
    range stage while the write sequence holds exactly one.  If the first
    element of limits is a list or tuple, that stage checks the tuple of the
    ranges made from the elements of limits and accepts a candidate exactly
    when some range of the tuple contains it; otherwise the stage checks the
    single range made from limits itself. *)
Theorem limits_stage_write_only
    (contains : MyRange_t -> pyval -> bool)
    (values units limits get_funcs set_funcs : pyval) :
  truthy limits = true ->
  (limits_well_formed limits ->
   funcs_well_formed get_funcs -> funcs_well_formed set_funcs ->
   exists gp sp,
     rebuild_stages values units limits get_funcs set_funcs = Ret (gp, sp)) /\
  (forall gp sp,
     rebuild_stages values units limits get_funcs set_funcs = Ret (gp, sp) ->
     List.filter is_range_stage gp = [] /\
     exists first r,
       getitem0 limits = Ret first /\
       List.filter is_range_stage sp = [range_checker r] /\
       if is_list_or_tuple first
       then
         exists ls rs,
           py_iter limits = Ret ls /\
           mapM (fun l => args ← py_iter l; mret (MyRange args)) ls = Ret rs /\
           r = RangeTuple rs /\
           forall value,
             run_range_checker contains r value = Ret value
             <-> exists x, x ∈ rs /\ contains x value = true
       else
         exists args,
           py_iter limits = Ret args /\
           r = OneRange (MyRange args) /\
           forall value,
             run_range_checker contains r value = Ret value
             <-> contains (MyRange args) value = true).
Proof.
  intros Hset. split.
  - intros Hlim Hget Hsetf. apply rebuild_stages_returns; auto.
  - intros gp sp. rewrite rebuild_stages_closed_form.
    intros (lim & Hlim & H)%outcome_bind_inv.
    apply outcome_bind_inv in H as (gf & Hgf & H).
    apply outcome_bind_inv in H as (sf & Hsf & H).
    injection H as <- <-.
    split.
    { rewrite !List.filter_app, spec_units_read_no_range,
        spec_values_read_no_range.
      simpl. by eapply spec_funcs_no_range. }
    unfold spec_limits_write in Hlim. rewrite Hset in Hlim.
    apply outcome_bind_inv in Hlim as (first & Hfirst & Hlim).
    rewrite !List.filter_app, spec_units_write_no_range,
      spec_values_write_no_range, (spec_funcs_no_range _ _ Hsf).
    simpl. rewrite app_nil_r.
    destruct (is_list_or_tuple first) eqn:Hseq.
    + apply outcome_bind_inv in Hlim as (ls & Hls & Hlim).
      apply outcome_bind_inv in Hlim as (rs & Hrs & Hlim).
      injection Hlim as <-.
      exists first, (RangeTuple rs). rewrite Hseq.
      split; [done|]. split; [done|].
      exists ls, rs. repeat split; try done; apply run_range_checker_any.
    + apply outcome_bind_inv in Hlim as (args & Hargs & Hlim).
      injection Hlim as <-.
      exists first, (OneRange (MyRange args)). rewrite Hseq.
      split; [done|]. split; [done|].
      exists args. repeat split; try done; apply run_range_checker_one.
Qed.

Lemma limits_stage_write_only_witness :
  truthy (PTuple [PTuple [PInt 0; PInt 10]; PList [PInt 20; PInt 30]]) = true /\
  exists gp sp,
    rebuild_stages PNone (PStr "V")
      (PTuple [PTuple [PInt 0; PInt 10]; PList [PInt 20; PInt 30]])
      (PList [PFunc "f"]) PNone = Ret (gp, sp).
Proof.
  split; [reflexivity|].
  apply (limits_stage_write_only int_range_contains PNone (PStr "V")
           (PTuple [PTuple [PInt 0; PInt 10]; PList [PInt 20; PInt 30]])
           (PList [PFunc "f"]) PNone eq_refl).
  - exists (PTuple [PInt 0; PInt 10]), [PList [PInt 20; PInt 30]].
    split; [by left|]. intros _.
    repeat constructor; by eexists.
  - intros _. by eexists.
  - intros H. discriminate H.
Defined.

(** ** The object store *)

Lemma at_feat_feats {A} (l : loc) (m : St Feat A) (w : world) :
  feats (at_feat l m w).2 = <[l := (m (feats w !!! l)).2]> (feats w).
Proof. unfold at_feat. by destruct (m _). Qed.

Lemma at_feat_outcome {A} (l : loc) (m : St Feat A) (w : world) :
  (at_feat l m w).1 = (m (feats w !!! l)).1.
Proof. unfold at_feat. by destruct (m _). Qed.

Lemma at_feat_frame {A} (l : loc) (m : St Feat A) (w : world) :
  dictfeats (at_feat l m w).2 = dictfeats w /\
  registries (at_feat l m w).2 = registries w /\
  classes (at_feat l m w).2 = classes w.
Proof. unfold at_feat. by destruct (m _). Qed.

Lemma for_in_at_feat_frame {E} (entries : list (E * loc)) (m : St Feat unit)
    (w : world) :
  let w' := (for_in entries (fun entry => at_feat entry.2 m) w).2 in
  dictfeats w' = dictfeats w /\
  registries w' = registries w /\
  classes w' = classes w /\
  forall l, l ∉ entries.*2 -> feats w' !! l = feats w !! l.
Proof.
  revert w. induction entries as [|[e l0] entries IH]; intros w; simpl.
  - done.
  - pose proof (at_feat_frame l0 m w) as (Hd & Hr & Hc).
    pose proof (at_feat_feats l0 m w) as Hf.
    unfold mbind, St_bind.
    destruct (at_feat l0 m w) as [[[]|e'] w1]; simpl in *.
    + destruct (IH w1) as (Hd' & Hr' & Hc' & Hf').
      repeat split; try congruence.
      intros l [Hne Hl]%not_elem_of_cons. rewrite Hf' by done.
      rewrite Hf. by apply lookup_insert_ne.
    + repeat split; try done.
      intros l [Hne Hl]%not_elem_of_cons. rewrite Hf.
      by apply lookup_insert_ne.
Qed.

Lemma DictFeat_on_config_set_frame self instance key value w :
  let w' := (DictFeat_on_config_set self instance key value w).2 in
  dictfeats w' = dictfeats w /\
  registries w' = registries w /\
  classes w' = classes w /\
  forall l, l ∉ (_subproperties (dictfeats w !!! self)).*2 ->
            feats w' !! l = feats w !! l.
Proof.
  unfold DictFeat_on_config_set.
  destruct (negb (is_modifier key)); [done|].
  unfold mbind, St_bind, get_state. apply for_in_at_feat_frame.
Qed.

(** ** C6 and C7: the instance proxies *)

Lemma is_modifier_not_pipeline (key : string) :
  is_modifier key = true -> key <> "post_get" /\ key <> "pre_set".
Proof.
  unfold is_modifier, modifiers. intros Hin%bool_decide_eq_true.
  repeat (apply elem_of_cons in Hin as [-> | Hin]; [done|]).
  by apply elem_of_nil in Hin.
Qed.

(** The guard of lines 122-123: a key that is not a modifier leaves the
    descriptor alone. *)
Lemma Feat_on_config_set_other_key instance key value self :
  is_modifier key = false ->
  Feat_on_config_set instance key value self = (Ret tt, self).
Proof. unfold Feat_on_config_set. by intros ->. Qed.

(** The change handler never touches the slot that was just assigned. *)
Lemma Feat_on_config_set_keeps_slot instance key value self :
  config (Feat_on_config_set instance key value self).2 !! (instance, key)
  = config self !! (instance, key).
Proof.
  unfold Feat_on_config_set.
  destruct (is_modifier key) eqn:Hmod; simpl; [|done].
  apply is_modifier_not_pipeline in Hmod as [Hget Hset].
  rewrite rebuild_unfold. destruct (rebuild_stages _ _ _ _ _); simpl; [|done].
  rewrite !lookup_insert_ne; congruence.
Qed.

Lemma config_get_override self i key v :
  config self !! (Some i, key) = Some v -> config_get self (Some i) key = v.
Proof. unfold config_get. by intros ->. Qed.

Lemma config_get_fallback self i key :
  config self !! (Some i, key) = None ->
  config_get self (Some i) key = class_config self key.
Proof. unfold config_get. by intros ->. Qed.

Lemma at_feat_config_set (l : loc) instance key value (w : world) :
  at_feat l (config_set instance key value) w
  = at_feat l (Feat_on_config_set instance key value)
      (set_feats
         (<[l := store_set instance key (CVal value) (feats w !!! l)]> (feats w))
         w).
Proof.
  unfold at_feat, config_set, mbind, St_bind, modify, set_feats. simpl.
  rewrite lookup_total_insert_eq.
  destruct (Feat_on_config_set _ _ _ _) as [r f].
  by rewrite insert_insert_eq.
Qed.

Lemma FeatProxy_setattr_accepts (p : FeatProxy.t) item value w :
  item ∈ _config_keys (feats w !!! FeatProxy.proxied p) ->
  FeatProxy.__setattr__ p item value w
  = at_feat (FeatProxy.proxied p)
      (config_set (Some (FeatProxy.instance p)) item value) w.
Proof.
  intros Hin. unfold FeatProxy.__setattr__, mbind, St_bind, get_state.
  by rewrite bool_decide_eq_true_2.
Qed.

Lemma DictFeatProxy_setattr_accepts (p : DictFeatProxy.t) item value w :
  item ∈ d_config_keys (dictfeats w !!! DictFeatProxy.proxied p) ->
  DictFeatProxy.__setattr__ p item value w
  = DictFeat_config_set (DictFeatProxy.proxied p)
      (Some (DictFeatProxy.instance p)) item value w.
Proof.
  intros Hin. unfold DictFeatProxy.__setattr__, mbind, St_bind, get_state.
  by rewrite bool_decide_eq_true_2.
Qed.

Lemma DictFeat_config_set_unfold self instance key value w :
  DictFeat_config_set self instance key value w
  = DictFeat_on_config_set self instance key value
      (set_dictfeats
         (<[self := d_store_set instance key value (dictfeats w !!! self)]>
            (dictfeats w)) w).
Proof. reflexivity. Qed.

(** C6, as the code has it: a write through a proxy raises AttributeError,
    and changes nothing, when the name is not among the Config entries of
    the proxied descriptor ([_config_keys]); for every other name it stores
    the value as the override of the owning instance and then runs the
    descriptor's change handler with that instance as scope.  This holds
    for FeatProxy and for DictFeatProxy. *)
Theorem proxy_setattr_config_keys :
  (forall (p : FeatProxy.t) (item : string) (value : pyval) (w : world),
     let feat := feats w !!! FeatProxy.proxied p in
     let i := FeatProxy.instance p in
     (item ∉ _config_keys feat ->
      exists msg,
        FeatProxy.__setattr__ p item value w
        = (Raise (AttributeError msg item), w)) /\
     (item ∈ _config_keys feat ->
      FeatProxy.__setattr__ p item value w
      = at_feat (FeatProxy.proxied p)
          (Feat_on_config_set (Some i) item value)
          (set_feats
             (<[FeatProxy.proxied p := store_set (Some i) item (CVal value) feat]>
                (feats w)) w) /\
      config_get
        (feats (FeatProxy.__setattr__ p item value w).2
           !!! FeatProxy.proxied p) (Some i) item
      = CVal value)) /\
  (forall (p : DictFeatProxy.t) (item : string) (value : pyval) (w : world),
     let dictfeat := dictfeats w !!! DictFeatProxy.proxied p in
     let i := DictFeatProxy.instance p in
     (item ∉ d_config_keys dictfeat ->
      exists msg,
        DictFeatProxy.__setattr__ p item value w
        = (Raise (AttributeError msg item), w)) /\
     (item ∈ d_config_keys dictfeat ->
      DictFeatProxy.__setattr__ p item value w
      = DictFeat_on_config_set (DictFeatProxy.proxied p) (Some i) item value
          (set_dictfeats
             (<[DictFeatProxy.proxied p := d_store_set (Some i) item value dictfeat]>
                (dictfeats w)) w) /\
      d_config_get
        (dictfeats (DictFeatProxy.__setattr__ p item value w).2
           !!! DictFeatProxy.proxied p) (Some i) item
      = value)).
Proof.
  split; intros p item value w; simpl; split.
  - intros Hout. eexists.
    unfold FeatProxy.__setattr__, mbind, St_bind, get_state, raise.
    by rewrite bool_decide_eq_false_2.
  - intros Hin. rewrite FeatProxy_setattr_accepts by done.
    split; [apply at_feat_config_set|].
    rewrite at_feat_config_set, at_feat_feats. simpl.
    rewrite !lookup_total_insert_eq.
    apply config_get_override.
    rewrite Feat_on_config_set_keeps_slot. simpl.
    apply lookup_insert_eq.
  - intros Hout. eexists.
    unfold DictFeatProxy.__setattr__, mbind, St_bind, get_state, raise.
    by rewrite bool_decide_eq_false_2.
  - intros Hin. rewrite DictFeatProxy_setattr_accepts by done.
    rewrite DictFeat_config_set_unfold. split; [done|].
    destruct (DictFeat_on_config_set_frame (DictFeatProxy.proxied p)
                (Some (DictFeatProxy.instance p)) item value
                (set_dictfeats
                   (<[DictFeatProxy.proxied p :=
                        d_store_set (Some (DictFeatProxy.instance p)) item value
                          (dictfeats w !!! DictFeatProxy.proxied p)]>
                      (dictfeats w)) w)) as (-> & _).
    simpl. rewrite lookup_total_insert_eq.
    unfold d_config_get, d_store_set. simpl. by rewrite lookup_insert_eq.
Qed.

Lemma proxy_setattr_config_keys_witness :
  ("colour" ∉ _config_keys (feats ex_world !!! FeatProxy.proxied ex_proxy)) /\
  (exists msg,
     FeatProxy.__setattr__ ex_proxy "colour" (PStr "red") ex_world
     = (Raise (AttributeError msg "colour"), ex_world)) /\
  (exists msg,
     FeatProxy.__setattr__ ex_proxy "post_get" (PFunc "f") ex_world
     = (Raise (AttributeError msg "post_get"), ex_world)) /\
  ("units" ∈ _config_keys (feats ex_world !!! FeatProxy.proxied ex_proxy)) /\
  config_get
    (feats (FeatProxy.__setattr__ ex_proxy "units" (PStr "mV") ex_world).2
       !!! FeatProxy.proxied ex_proxy) (Some (FeatProxy.instance ex_proxy))
    "units"
  = CVal (PStr "mV").
Proof.
  assert ("colour" ∉ _config_keys (feats ex_world !!! FeatProxy.proxied ex_proxy))
    as Hout by (refine (bool_decide_unpack _ _); vm_compute; exact I).
  assert ("units" ∈ _config_keys (feats ex_world !!! FeatProxy.proxied ex_proxy))
    as Hin by (refine (bool_decide_unpack _ _); vm_compute; exact I).
  assert ("post_get" ∉ _config_keys (feats ex_world !!! FeatProxy.proxied ex_proxy))
    as Hpipe by (refine (bool_decide_unpack _ _); vm_compute; exact I).
  destruct proxy_setattr_config_keys as [Hfeat _].
  split; [exact Hout|]. split; [|split].
  - destruct (Hfeat ex_proxy "colour" (PStr "red") ex_world) as [Hraise _].
    exact (Hraise Hout).
  - destruct (Hfeat ex_proxy "post_get" (PFunc "f") ex_world) as [Hraise _].
    exact (Hraise Hpipe).
  - split; [exact Hin|].
    destruct (Hfeat ex_proxy "units" (PStr "mV") ex_world) as [_ Hstore].
    exact (proj2 (Hstore Hin)).
Defined.

(** C6 as stated fails: [read_once] is not one of the five Modifier Set
    keys, yet a write of it through the proxy of a Feat does not raise: it
    returns and stores the value as the override of the instance, the
    class-level value staying as it was. *)
Lemma proxy_setattr_read_once_accepted :
  ("read_once" ∉ modifiers) /\
  (FeatProxy.__setattr__ ex_proxy "read_once" (PInt 1) ex_world_once).1
  = Ret tt /\
  config_get (feats ex_world_once !!! FeatProxy.proxied ex_proxy) (Some 1%nat)
    "read_once"
  = CVal (PInt 0) /\
  config_get (feats ex_world_once_set !!! FeatProxy.proxied ex_proxy)
    (Some 1%nat) "read_once"
  = CVal (PInt 1) /\
  class_config (feats ex_world_once_set !!! FeatProxy.proxied ex_proxy)
    "read_once"
  = CVal (PInt 0).
Proof.
  split; [refine (bool_decide_unpack _ _); vm_compute; exact I|].
  repeat split; vm_compute; reflexivity.
Qed.

(** C7, as the code has it: a read through a proxy returns the value of the
    name for the owning instance when the name is among the Config entries
    of the proxied descriptor (the override of the instance when there is
    one, the class-level value otherwise); for any other name that the
    descriptor has it returns that member, wrapped in a partial application
    to the instance when it is callable; and for a name the descriptor does
    not have it raises AttributeError.  Nothing is changed by a read.  This
    holds for FeatProxy and for DictFeatProxy. *)
Theorem proxy_getattr_config_keys :
  (forall (p : FeatProxy.t) (item : string) (w : world),
     let feat := feats w !!! FeatProxy.proxied p in
     let i := FeatProxy.instance p in
     (item ∈ _config_keys feat ->
      FeatProxy.__getattr__ p item w
      = (Ret (Plain (config_get feat (Some i) item)), w) /\
      (forall v, config feat !! (Some i, item) = Some v ->
                 config_get feat (Some i) item = v) /\
      (config feat !! (Some i, item) = None ->
       config_get feat (Some i) item = class_config feat item)) /\
     (item ∉ _config_keys feat ->
      forall out, Feat_getattr feat item = Some out ->
      FeatProxy.__getattr__ p item w
      = (Ret (if callable out then Partial out i else Plain out), w)) /\
     (item ∉ _config_keys feat ->
      Feat_getattr feat item = None ->
      exists msg,
        FeatProxy.__getattr__ p item w = (Raise (AttributeError msg item), w))) /\
  (forall (p : DictFeatProxy.t) (item : string) (w : world),
     let dictfeat := dictfeats w !!! DictFeatProxy.proxied p in
     let i := DictFeatProxy.instance p in
     (item ∈ d_config_keys dictfeat ->
      DictFeatProxy.__getattr__ p item w
      = (Ret (Plain (CVal (d_config_get dictfeat (Some i) item))), w) /\
      (forall v, d_config dictfeat !! (Some i, item) = Some v ->
                 d_config_get dictfeat (Some i) item = v) /\
      (d_config dictfeat !! (Some i, item) = None ->
       d_config_get dictfeat (Some i) item = d_class_config dictfeat item)) /\
     (item ∉ d_config_keys dictfeat ->
      forall out, DictFeat_getattr dictfeat item = Some out ->
      DictFeatProxy.__getattr__ p item w
      = (Ret (if callable out then Partial out i else Plain out), w)) /\
     (item ∉ d_config_keys dictfeat ->
      DictFeat_getattr dictfeat item = None ->
      exists msg,
        DictFeatProxy.__getattr__ p item w
        = (Raise (AttributeError msg item), w))).
Proof.
  split; intros p item w; simpl; repeat split.
  - unfold FeatProxy.__getattr__, mbind, St_bind, get_state.
    by rewrite bool_decide_eq_true_2.
  - intros v. apply config_get_override.
  - apply config_get_fallback.
  - intros Hout out Hattr.
    unfold FeatProxy.__getattr__, mbind, St_bind, get_state.
    rewrite bool_decide_eq_false_2, Hattr by done.
    by destruct (callable out).
  - intros Hout Hattr. eexists.
    unfold FeatProxy.__getattr__, mbind, St_bind, get_state, raise.
    by rewrite bool_decide_eq_false_2, Hattr.
  - unfold DictFeatProxy.__getattr__, mbind, St_bind, get_state.
    by rewrite bool_decide_eq_true_2.
  - intros v Hv. unfold d_config_get. by rewrite Hv.
  - intros Hv. unfold d_config_get. by rewrite Hv.
  - intros Hout out Hattr.
    unfold DictFeatProxy.__getattr__, mbind, St_bind, get_state.
    rewrite bool_decide_eq_false_2, Hattr by done.
    by destruct (callable out).
  - intros Hout Hattr. eexists.
    unfold DictFeatProxy.__getattr__, mbind, St_bind, get_state, raise.
    by rewrite bool_decide_eq_false_2, Hattr.
Qed.

Lemma proxy_getattr_config_keys_witness :
  FeatProxy.__getattr__ ex_proxy "units" ex_world_mV
  = (Ret (Plain (CVal (PStr "mV"))), ex_world_mV) /\
  FeatProxy.__getattr__ (FeatProxy.mk 2 10%positive) "units" ex_world_mV
  = (Ret (Plain (CVal (PStr "V"))), ex_world_mV) /\
  FeatProxy.__getattr__ ex_proxy "rebuild" ex_world_mV
  = (Ret (Partial (CVal (PFunc "Feat.rebuild")) 1), ex_world_mV) /\
  FeatProxy.__getattr__ ex_proxy "post_get" ex_world_mV
  = (Ret (Partial (CProc [to_quantity_converter (PStr "V")]) 1), ex_world_mV) /\
  (exists msg,
     FeatProxy.__getattr__ ex_proxy "colour" ex_world_mV
     = (Raise (AttributeError msg "colour"), ex_world_mV)).
Proof.
  assert ("units" ∈ _config_keys (feats ex_world_mV !!! 10%positive))
    as Hin by (refine (bool_decide_unpack _ _); vm_compute; exact I).
  assert ("rebuild" ∉ _config_keys (feats ex_world_mV !!! 10%positive))
    as Hmeth by (refine (bool_decide_unpack _ _); vm_compute; exact I).
  assert ("post_get" ∉ _config_keys (feats ex_world_mV !!! 10%positive))
    as Hpipe by (refine (bool_decide_unpack _ _); vm_compute; exact I).
  assert ("colour" ∉ _config_keys (feats ex_world_mV !!! 10%positive))
    as Hout by (refine (bool_decide_unpack _ _); vm_compute; exact I).
  destruct proxy_getattr_config_keys as [Hfeat _].
  split; [|split; [|split; [|split]]].
  - destruct (Hfeat ex_proxy "units" ex_world_mV) as [Hcfg _].
    destruct (Hcfg Hin) as (-> & Hover & _).
    by rewrite (Hover (CVal (PStr "mV"))).
  - destruct (Hfeat (FeatProxy.mk 2 10%positive) "units" ex_world_mV)
      as [Hcfg _].
    destruct (Hcfg Hin) as (-> & _ & Hfall).
    by rewrite Hfall.
  - destruct (Hfeat ex_proxy "rebuild" ex_world_mV) as (_ & Hmem & _).
    by rewrite (Hmem Hmeth (CVal (PFunc "Feat.rebuild"))).
  - destruct (Hfeat ex_proxy "post_get" ex_world_mV) as (_ & Hmem & _).
    by rewrite (Hmem Hpipe (CProc [to_quantity_converter (PStr "V")])).
  - destruct (Hfeat ex_proxy "colour" ex_world_mV) as (_ & _ & Hraise).
    by apply Hraise.
Defined.

(** C7 as stated fails: [read_once] is not one of the five Modifier Set
    keys and the descriptor exposes it, as a member that is not callable
    (its class-level value), so the claim has the proxy return that member;
    the proxy returns the value of the instance instead. *)
Lemma proxy_getattr_read_once_instance_value :
  ("read_once" ∉ modifiers) /\
  Feat_getattr (feats ex_world_once_set !!! FeatProxy.proxied ex_proxy)
    "read_once"
  = Some (CVal (PInt 0)) /\
  callable (CVal (PInt 0)) = false /\
  (FeatProxy.__getattr__ ex_proxy "read_once" ex_world_once_set).1
  = Ret (Plain (CVal (PInt 1))) /\
  (FeatProxy.__getattr__ ex_proxy "read_once" ex_world_once_set).1
  <> Ret (Plain (CVal (PInt 0))).
Proof.
  split; [refine (bool_decide_unpack _ _); vm_compute; exact I|].
  repeat split; try (vm_compute; reflexivity); vm_compute; discriminate.
Qed.

(** ** C8: materializing a sub-descriptor *)

Lemma Feat_init_config_class (f : string -> pyval) (keys : list string)
    (m : gmap (scope * string) cfgval) (k : string) :
  foldl (fun c kv => <[(None, kv.1) := CVal kv.2]> c) m
        ((fun key => (key, f key)) <$> keys) !! (None, k)
  = if decide (k ∈ keys) then Some (CVal (f k)) else m !! (None, k).
Proof.
  revert m. induction keys as [|a keys IH]; intros m;
    cbn [fmap list_fmap foldl fst snd].
  - by rewrite decide_False by apply not_elem_of_nil.
  - rewrite IH. destruct (decide (k ∈ keys)) as [Hin|Hout].
    + by rewrite decide_True by (by right).
    + destruct (decide (k = a)) as [->|Hne].
      * rewrite decide_True by left. apply lookup_insert_eq.
      * rewrite decide_False by (by intros [?|?]%elem_of_cons).
        apply lookup_insert_ne. congruence.
Qed.

Lemma Feat_init_config_instance (kwargs : list (string * pyval))
    (m : gmap (scope * string) cfgval) (i : nat) (k : string) :
  foldl (fun c kv => <[(None, kv.1) := CVal kv.2]> c) m kwargs !! (Some i, k)
  = m !! (Some i, k).
Proof.
  revert m. induction kwargs as [|kv kwargs IH]; intros m; simpl; [done|].
  rewrite IH. by apply lookup_insert_ne.
Qed.

(** C8: the descriptor returned by build_subproperty is a new, unbound Feat
    whose getter and setter are the accessors passed in, whose five
    modifiers are, at class level, the values the DictFeat has for the
    requested scope at that moment, and which carries no instance override
    and no other class-level value. *)
Theorem build_subproperty_clones (self : DictFeat) (key getter setter : pyval)
    (instance : scope) :
  modifiers ⊆ d_config_keys self ->
  let p := build_subproperty self key getter setter instance in
  fget p = getter /\
  fset p = setter /\
  name p = None /\
  (forall k, k ∈ modifiers ->
     modifier p None k = d_config_get self instance k) /\
  (forall i k, config p !! (Some i, k) = None) /\
  (forall k, k ∉ d_config_keys self -> config p !! (None, k) = None).
Proof.
  intros Hkeys. simpl. repeat split.
  - intros k Hk. unfold modifier, config_get, class_config.
    unfold build_subproperty, Feat_init, config_iter. simpl.
    rewrite Feat_init_config_class.
    by rewrite decide_True by (by apply Hkeys).
  - intros i k. unfold build_subproperty, Feat_init. simpl.
    by rewrite Feat_init_config_instance.
  - intros k Hk. unfold build_subproperty, Feat_init, config_iter. simpl.
    rewrite Feat_init_config_class. by rewrite decide_False.
Qed.

Lemma build_subproperty_clones_witness :
  modifier
    (build_subproperty
       (d_store_set (Some 1%nat) "units" (PStr "mV")
          (d_store_set None "units" (PStr "V") ex_dictfeat))
       (PStr "a") (PFunc "get_ch_a") (PFunc "set_ch_a") (Some 1%nat))
    None "units"
  = PStr "mV".
Proof.
  assert (modifiers ⊆ d_config_keys
            (d_store_set (Some 1%nat) "units" (PStr "mV")
               (d_store_set None "units" (PStr "V") ex_dictfeat)))
    as Hkeys by (intros k Hk; exact Hk).
  destruct (build_subproperty_clones
              (d_store_set (Some 1%nat) "units" (PStr "mV")
                 (d_store_set None "units" (PStr "V") ex_dictfeat))
              (PStr "a") (PFunc "get_ch_a") (PFunc "set_ch_a") (Some 1%nat)
              Hkeys) as (_ & _ & _ & Hmods & _).
  rewrite Hmods; [reflexivity|].
  refine (bool_decide_unpack _ _). vm_compute. exact I.
Defined.

(** ** C10 and C3: propagation to the sub-descriptors *)

Lemma modifier_set_ext (f g : Feat) (instance : scope) :
  (forall k, k ∈ modifiers -> modifier f instance k = modifier g instance k) ->
  modifier_set f instance = modifier_set g instance.
Proof.
  intros Heq. unfold modifier_set.
  rewrite !Heq; [done|..]; unfold modifiers;
    repeat (first [by left | right]).
Qed.

Lemma rebuild_stages_of (instance : scope) (self : Feat) :
  rebuild instance self =
    match stages_of (modifier_set self instance) with
    | Ret ps =>
        (Ret tt,
         store_set instance "pre_set" (CProc ps.2)
           (store_set instance "post_get" (CProc (reversed ps.1)) self))
    | Raise e => (Raise e, self)
    end.
Proof. apply rebuild_unfold. Qed.

Lemma modifier_store_set_ne instance key key' value self :
  key <> key' ->
  modifier (store_set instance key value self) instance key'
  = modifier self instance key'.
Proof. intros Hne. unfold modifier. by rewrite config_get_store_set_ne. Qed.

Lemma modifier_store_set_eq instance key value self :
  modifier (store_set instance key (CVal value) self) instance key = value.
Proof. unfold modifier. by rewrite config_get_store_set_eq. Qed.

Lemma is_modifier_elem (key : string) : key ∈ modifiers -> is_modifier key = true.
Proof. intros Hin. unfold is_modifier. by apply bool_decide_eq_true_2. Qed.

(** The pipelines stored for a scope do not feed back into the modifiers. *)
Lemma modifier_set_pipelines instance gp sp self :
  modifier_set
    (store_set instance "pre_set" (CProc sp)
       (store_set instance "post_get" (CProc gp) self)) instance
  = modifier_set self instance.
Proof.
  apply modifier_set_ext. intros k Hk%is_modifier_elem.
  apply is_modifier_not_pipeline in Hk as [Hget Hset].
  rewrite !modifier_store_set_ne; congruence.
Qed.

Section Propagation.

Variables (key : string) (value : pyval).
Hypothesis key_modifier : key ∈ modifiers.

Lemma py_setattr_updates (f : Feat) :
  rebuildable key value f ->
  exists f',
    py_setattr key value f = (Ret tt, f') /\
    updated key value f' /\ rebuildable key value f'.
Proof.
  intros [[gp sp] Hps].
  pose proof (is_modifier_not_pipeline key (is_modifier_elem key key_modifier))
    as [Hget Hset].
  unfold py_setattr, config_set, mbind, St_bind, modify, Feat_on_config_set.
  rewrite (is_modifier_elem key key_modifier). simpl.
  rewrite rebuild_stages_of, Hps. simpl.
  eexists. split; [done|]. split.
  - split.
    + change (config_get
                (store_set None "pre_set" (CProc sp)
                   (store_set None "post_get" (CProc (reversed gp))
                      (store_set None key (CVal value) f))) None key
              = CVal value).
      rewrite !config_get_store_set_ne by congruence.
      apply config_get_store_set_eq.
    + exists gp, sp. rewrite modifier_set_pipelines. split; [done|]. split.
      * change (config_get
                  (store_set None "pre_set" (CProc sp)
                     (store_set None "post_get" (CProc (reversed gp))
                        (store_set None key (CVal value) f))) None "post_get"
                = CProc (rev gp)).
        rewrite config_get_store_set_ne by done.
        apply config_get_store_set_eq.
      * change (config_get
                  (store_set None "pre_set" (CProc sp)
                     (store_set None "post_get" (CProc (reversed gp))
                        (store_set None key (CVal value) f))) None "pre_set"
                = CProc sp).
        apply config_get_store_set_eq.
  - exists (gp, sp). rewrite <- Hps. f_equal.
    apply modifier_set_ext. intros k Hk%is_modifier_elem.
    apply is_modifier_not_pipeline in Hk as [Hkget Hkset].
    destruct (decide (k = key)) as [->|Hne].
    + by rewrite !modifier_store_set_eq.
    + rewrite !modifier_store_set_ne by congruence. done.
Qed.

Lemma for_in_py_setattr {E} (entries : list (E * loc)) (w : world) :
  (forall l, l ∈ entries.*2 -> rebuildable key value (feats w !!! l)) ->
  let r := for_in entries (fun entry => at_feat entry.2 (py_setattr key value)) w in
  r.1 = Ret tt /\
  forall l, l ∈ entries.*2 -> updated key value (feats r.2 !!! l).
Proof.
  revert w. induction entries as [|[e l0] entries IH]; intros w Hok;
    rewrite ?fmap_cons in *; cbn zeta.
  - split; [done|]. by intros l Hl%elem_of_nil.
  - destruct (py_setattr_updates (feats w !!! l0)) as (f' & Hstep & Hup & Hok').
    { apply Hok. by left. }
    set (w1 := set_feats (<[l0:=f']> (feats w)) w).
    assert (for_in ((e, l0) :: entries)
              (fun entry => at_feat entry.2 (py_setattr key value)) w
            = for_in entries
                (fun entry => at_feat entry.2 (py_setattr key value)) w1)
      as -> by (simpl; unfold mbind, St_bind, at_feat; simpl; by rewrite Hstep).
    destruct (IH w1) as [Hret Hall].
    { intros l Hl. unfold w1. simpl.
      destruct (decide (l = l0)) as [->|Hne].
      - by rewrite lookup_total_insert_eq.
      - rewrite lookup_total_insert_ne by done. apply Hok. by right. }
    split; [done|].
    intros l [->|Hl]%elem_of_cons; [|by apply Hall].
    destruct (decide (l0 ∈ entries.*2)) as [Hin|Hout]; [by apply Hall|].
    destruct (for_in_at_feat_frame entries (py_setattr key value) w1)
      as (_ & _ & _ & Hframe).
    simpl. rewrite lookup_total_alt, Hframe by done.
    unfold w1. simpl. by rewrite lookup_insert_eq.
Qed.

End Propagation.

(** C10: for a modifier key, DictFeat.on_config_set assigns the new value,
    at class level, to every entry of [_subproperties] whatever instance the
    entry was materialized for, and each of them rebuilds its class-level
    pipelines; the scope on which the change was made plays no part: the
    handler does the same for every [instance] argument.  The handler
    returns whenever each sub-descriptor can be rebuilt with the new
    value. *)
Theorem DictFeat_on_config_set_all_subproperties
    (self : loc) (instance : scope) (key : string) (value : pyval)
    (w : world) :
  key ∈ modifiers ->
  (forall sk l, (sk, l) ∈ _subproperties (dictfeats w !!! self) ->
                rebuildable key value (feats w !!! l)) ->
  let r := DictFeat_on_config_set self instance key value w in
  r.1 = Ret tt /\
  (forall sk l, (sk, l) ∈ _subproperties (dictfeats w !!! self) ->
                updated key value (feats r.2 !!! l)) /\
  (forall instance', DictFeat_on_config_set self instance' key value w = r).
Proof.
  intros Hkey Hok. cbn zeta. unfold DictFeat_on_config_set.
  rewrite (is_modifier_elem key Hkey). simpl.
  unfold mbind, St_bind, get_state.
  destruct (for_in_py_setattr key value Hkey
              (_subproperties (dictfeats w !!! self)) w) as [Hret Hall].
  { intros l (entry & -> & Hin)%list_elem_of_fmap.
    destruct entry as [sk l]. by eapply Hok. }
  split; [done|]. split; [|done].
  intros sk l Hin. apply Hall.
  apply list_elem_of_fmap. by exists (sk, l).
Qed.

Lemma DictFeat_on_config_set_all_subproperties_witness :
  updated "units" (PStr "V")
    (feats (DictFeat_on_config_set 5%positive (Some 1%nat) "units" (PStr "V")
              ex_dict_world).2 !!! 21%positive).
Proof.
  assert ("units" ∈ modifiers) as Hkey
    by (refine (bool_decide_unpack _ _); vm_compute; exact I).
  destruct (DictFeat_on_config_set_all_subproperties 5%positive (Some 1%nat)
              "units" (PStr "V") ex_dict_world Hkey) as (_ & Hall & _).
  - intros sk l Hin.
    change (_subproperties (dictfeats ex_dict_world !!! 5%positive))
      with [((1%nat, PStr "a"), 20%positive); ((2%nat, PStr "a"), 21%positive)]
      in Hin.
    apply elem_of_cons in Hin as [[= -> ->]|Hin].
    { exists ([to_quantity_converter (PStr "V")],
              [to_magnitude_converter (PStr "V")]).
      vm_compute. reflexivity. }
    apply elem_of_cons in Hin as [[= -> ->]|Hin].
    { exists ([to_quantity_converter (PStr "V")],
              [to_magnitude_converter (PStr "V")]).
      vm_compute. reflexivity. }
    by apply elem_of_nil in Hin.
  - apply (Hall (2%nat, PStr "a")).
    change (_subproperties (dictfeats ex_dict_world !!! 5%positive))
      with [((1%nat, PStr "a"), 20%positive); ((2%nat, PStr "a"), 21%positive)].
    right. left.
Defined.

(** C3, where the code departs from it: the units modifier is set through
    the proxy of instance 1 only; the DictFeat keeps the value as the
    override of instance 1 (its class-level value and the value for
    instance 2 stay unset), and yet the sub-descriptor materialized for
    instance 2 receives the value at class level and is rebuilt. *)
Theorem DictFeat_instance_change_reaches_other_instances :
  let r := DictFeatProxy.__setattr__ ex_dict_proxy "units" (PStr "V")
             ex_dict_world in
  r.1 = Ret tt /\
  d_config_get (dictfeats r.2 !!! 5%positive) (Some 1%nat) "units" = PStr "V" /\
  d_config_get (dictfeats r.2 !!! 5%positive) (Some 2%nat) "units" = PNone /\
  d_config_get (dictfeats r.2 !!! 5%positive) None "units" = PNone /\
  _subproperties (dictfeats ex_dict_world !!! 5%positive)
  = [((1%nat, PStr "a"), 20%positive); ((2%nat, PStr "a"), 21%positive)] /\
  class_config (feats ex_dict_world !!! 21%positive) "units" = CVal PNone /\
  class_config (feats ex_dict_world !!! 21%positive) "post_get" = CProc [] /\
  class_config (feats r.2 !!! 21%positive) "units" = CVal (PStr "V") /\
  class_config (feats r.2 !!! 21%positive) "post_get"
  = CProc [to_quantity_converter (PStr "V")] /\
  class_config (feats r.2 !!! 21%positive) "pre_set"
  = CProc [to_magnitude_converter (PStr "V")].
Proof. cbn zeta. repeat split; vm_compute; reflexivity. Qed.

(** ** C9 and C4: binding to the owner *)

Lemma keeps_descriptors_bind {A B} (m : St world A) (k : A -> St world B) :
  keeps_descriptors m -> (forall a, keeps_descriptors (k a)) ->
  keeps_descriptors (m ≫= k).
Proof.
  intros Hm Hk w. unfold mbind, St_bind.
  specialize (Hm w). destruct (m w) as [[a|e] w1]; simpl in *; [|done].
  destruct Hm as [Hf0 Hd0]. destruct (Hk a w1) as [Hf Hd]. split; congruence.
Qed.

Lemma keeps_descriptors_ret {A} (a : A) : keeps_descriptors (mret a).
Proof. by intros w. Qed.

Lemma keeps_descriptors_get_state : keeps_descriptors get_state.
Proof. by intros w. Qed.

Lemma keeps_descriptors_class_getattr a owner :
  keeps_descriptors (class_getattr a owner).
Proof. intros w. unfold class_getattr. by destruct (omap _ _). Qed.

Lemma keeps_descriptors_class_setattr a owner d :
  keeps_descriptors (class_setattr a owner d).
Proof. by intros w. Qed.

Lemma keeps_descriptors_copy_registry d : keeps_descriptors (copy_registry d).
Proof. by intros w. Qed.

Lemma keeps_descriptors_set_driver_cls d qualname :
  keeps_descriptors (set_driver_cls d qualname).
Proof. by intros w. Qed.

Lemma keeps_descriptors_registry_setitem d name self :
  keeps_descriptors (registry_setitem d name self).
Proof. by intros w. Qed.

Create HintDb descriptors.

#[local] Hint Resolve keeps_descriptors_ret keeps_descriptors_get_state
  keeps_descriptors_class_getattr keeps_descriptors_class_setattr
  keeps_descriptors_copy_registry keeps_descriptors_set_driver_cls
  keeps_descriptors_registry_setitem : descriptors.

(** Registering touches classes and registries only. *)
Lemma register_frame (a : registry_attr) (self owner : loc) (name : string)
    (w : world) :
  feats (register a self owner name w).2 = feats w /\
  dictfeats (register a self owner name w).2 = dictfeats w.
Proof.
  revert w. change (keeps_descriptors (register a self owner name)).
  unfold register.
  repeat (first [ apply keeps_descriptors_bind; [|intros ?]
                | case_bool_decide
                | solve [auto with descriptors] ]).
Qed.

Lemma rebuild_returns (instance : scope) (self self' : Feat) :
  rebuild instance self = (Ret tt, self') ->
  exists gp sp,
    stages_of (modifier_set self instance) = Ret (gp, sp) /\
    config_get self' instance "post_get" = CProc (rev gp) /\
    config_get self' instance "pre_set" = CProc sp.
Proof.
  rewrite rebuild_stages_of.
  destruct (stages_of _) as [[gp sp]|e]; [|discriminate].
  intros [= <-]. exists gp, sp. split; [done|]. simpl. split.
  - rewrite config_get_store_set_ne by done. apply config_get_store_set_eq.
  - apply config_get_store_set_eq.
Qed.

Lemma Feat_set_name_unfold (self owner : loc) (name : string) (w : world) :
  Feat___set_name__ self owner name w =
    let w1 := set_feats (<[self := set_name name (feats w !!! self)]> (feats w)) w in
    match register attr_lantz_feats self owner name w1 with
    | (Ret _, w2) => at_feat self (rebuild None) w2
    | (Raise e, w2) => (Raise e, w2)
    end.
Proof. reflexivity. Qed.

Lemma rebuild_keeps_name (instance : scope) (self : Feat) :
  name (rebuild instance self).2 = name self.
Proof. rewrite rebuild_stages_of. by destruct (stages_of _). Qed.

Lemma Feat_set_name_rebuilds (self owner : loc) (attr : string) (w : world) :
  (Feat___set_name__ self owner attr w).1 = Ret tt ->
  let f := feats (Feat___set_name__ self owner attr w).2 !!! self in
  name f = Some attr /\
  exists gp sp,
    stages_of (modifier_set f None) = Ret (gp, sp) /\
    class_config f "post_get" = CProc (rev gp) /\
    class_config f "pre_set" = CProc sp.
Proof.
  rewrite Feat_set_name_unfold. cbn zeta.
  pose proof (register_frame attr_lantz_feats self owner attr
                (set_feats
                   (<[self := set_name attr (feats w !!! self)]> (feats w)) w))
    as [Hf _].
  destruct (register _ _ _ _ _) as [[[]|e] w2]; [|done].
  simpl in Hf.
  rewrite at_feat_outcome, at_feat_feats, Hf, !lookup_total_insert_eq.
  destruct (rebuild None (set_name attr (feats w !!! self)))
    as [r f'] eqn:Hrebuild.
  simpl. intros ->.
  split.
  - pose proof (rebuild_keeps_name None (set_name attr (feats w !!! self)))
      as Hname.
    by rewrite Hrebuild in Hname.
  - destruct (rebuild_returns _ _ _ Hrebuild) as (gp & sp & Hps & Hget & Hset).
    rewrite rebuild_stages_of, Hps in Hrebuild. simpl in Hrebuild.
    injection Hrebuild as <-.
    exists gp, sp. split; [|by split].
    exact (eq_trans
             (f_equal stages_of (modifier_set_pipelines None (reversed gp) sp _))
             Hps).
Qed.

Lemma DictFeat_getattr_plain (d : DictFeat) (item : string) (out : cfgval) :
  DictFeat_getattr d item = Some out -> exists v, out = CVal v.
Proof.
  unfold DictFeat_getattr.
  repeat case_match; intros Hsome; simplify_option_eq; eauto.
Qed.

Lemma own_registry_set (a : registry_attr) (d : loc) (c : pyclass) :
  own_registry a (set_own_registry a d c) = Some d.
Proof. by destruct a. Qed.

Lemma qualname_set_own_registry (a : registry_attr) (d : loc) (c : pyclass) :
  __qualname__ (set_own_registry a d c) = __qualname__ c.
Proof. by destruct a. Qed.

(** The branch of lines 98-101: the registry the owner sees does not carry
    the owner's qualified name, so the owner gets a tagged copy of its own
    and the descriptor is entered there. *)
Lemma register_fork (a : registry_attr) (self owner : loc) (name : string)
    (w : world) (d : loc) :
  (class_getattr a owner w).1 = Ret d ->
  __lantz_driver_cls__ (registries w !!! d)
  <> Some (__qualname__ (classes w !!! owner)) ->
  let d' := fresh (dom (registries w)) in
  register a self owner name w
  = (Ret tt,
     set_registries
       (<[d' := mkRegistry (Some (__qualname__ (classes w !!! owner)))
                  (<[name := self]> (entries (registries w !!! d)))]>
          (registries w))
       (set_classes
          (<[owner := set_own_registry a d' (classes w !!! owner)]> (classes w))
          w)).
Proof.
  intros Hget Htag. cbn zeta. unfold register, mbind, St_bind.
  assert (class_getattr a owner w = (Ret d, w)) as ->.
  { unfold class_getattr in *. by destruct (omap _ _); simplify_eq/=. }
  unfold get_state. rewrite bool_decide_eq_true_2 by done.
  unfold copy_registry, set_driver_cls, class_setattr, modify. simpl.
  unfold class_getattr. simpl.
  rewrite !lookup_total_insert_eq, own_registry_set. simpl.
  unfold registry_setitem, modify, set_registries, set_classes. simpl.
  rewrite !lookup_total_insert_eq. simpl.
  by rewrite !insert_insert_eq.
Qed.

(** The other branch: the registry already carries the owner's qualified
    name and the descriptor is entered into that very dictionary. *)
Lemma register_in_place (a : registry_attr) (self owner : loc) (name : string)
    (w : world) (d : loc) :
  (class_getattr a owner w).1 = Ret d ->
  __lantz_driver_cls__ (registries w !!! d)
  = Some (__qualname__ (classes w !!! owner)) ->
  register a self owner name w
  = (Ret tt,
     set_registries
       (<[d := mkRegistry (__lantz_driver_cls__ (registries w !!! d))
                 (<[name := self]> (entries (registries w !!! d)))]>
          (registries w)) w).
Proof.
  intros Hget Htag. unfold register, mbind, St_bind.
  assert (class_getattr a owner w = (Ret d, w)) as Hget'.
  { unfold class_getattr in *. by destruct (omap _ _); simplify_eq/=. }
  rewrite Hget'. unfold get_state.
  rewrite bool_decide_eq_false_2 by (by intros ?). simpl.
  by rewrite Hget'.
Qed.

Lemma omap_own_registry_other (a : registry_attr) (owner : loc)
    (cls : pyclass) (m : gmap loc pyclass) (l : list loc) :
  owner ∉ l ->
  omap (fun c => own_registry a (<[owner := cls]> m !!! c)) l
  = omap (fun c => own_registry a (m !!! c)) l.
Proof.
  induction l as [|x xs IH]; [done|].
  intros [Hx Hxs]%not_elem_of_cons. cbn [omap list_omap].
  rewrite lookup_total_insert_ne by done. by rewrite IH.
Qed.

(** What a class sees as its registry depends on the classes of its
    resolution order only. *)
Lemma class_getattr_other (a : registry_attr) (c owner : loc) (cls : pyclass)
    (w : world) :
  owner ∉ c :: mro (classes w !!! c) ->
  (class_getattr a c
     (set_classes (<[owner := cls]> (classes w)) w)).1
  = (class_getattr a c w).1.
Proof.
  intros Hout. unfold class_getattr, set_classes. cbn [classes].
  assert (c <> owner) as Hne by (intros ->; apply Hout; left).
  rewrite lookup_total_insert_ne by done.
  rewrite omap_own_registry_other by done.
  by destruct (omap _ _).
Qed.

Lemma class_getattr_classes (a : registry_attr) (c : loc) (w1 w2 : world) :
  classes w1 = classes w2 ->
  (class_getattr a c w1).1 = (class_getattr a c w2).1.
Proof.
  intros Heq. unfold class_getattr. rewrite Heq. by destruct (omap _ _).
Qed.

(** Isolation, where the code achieves it: when the registry the owner
    sees is not tagged with the owner's qualified name, binding a
    descriptor to the owner leaves untouched what every class outside the
    owner's descendants sees as its registry, provided the registries that
    classes refer to are allocated. *)
Lemma register_isolates (a : registry_attr) (self owner : loc) (name : string)
    (w : world) (d c dc : loc) :
  (class_getattr a owner w).1 = Ret d ->
  __lantz_driver_cls__ (registries w !!! d)
  <> Some (__qualname__ (classes w !!! owner)) ->
  owner ∉ c :: mro (classes w !!! c) ->
  (class_getattr a c w).1 = Ret dc ->
  dc ∈ dom (registries w) ->
  let w' := (register a self owner name w).2 in
  (class_getattr a c w').1 = Ret dc /\
  registries w' !! dc = registries w !! dc.
Proof.
  intros Hget Htag Hout Hc Hdom. cbn zeta.
  rewrite (register_fork a self owner name w d Hget Htag). simpl.
  split.
  - rewrite <- Hc.
    rewrite <- (class_getattr_other a c owner
                  (set_own_registry a (fresh (dom (registries w)))
                     (classes w !!! owner)) w Hout).
    by apply class_getattr_classes.
  - apply lookup_insert_ne. intros Heq.
    pose proof (is_fresh (dom (registries w))) as Hfresh.
    rewrite Heq in Hfresh. by apply Hfresh.
Qed.

Lemma Feat_set_name_isolates (self owner : loc) (name : string) (w : world)
    (d c dc : loc) :
  (class_getattr attr_lantz_feats owner w).1 = Ret d ->
  __lantz_driver_cls__ (registries w !!! d)
  <> Some (__qualname__ (classes w !!! owner)) ->
  owner ∉ c :: mro (classes w !!! c) ->
  (class_getattr attr_lantz_feats c w).1 = Ret dc ->
  dc ∈ dom (registries w) ->
  let w' := (Feat___set_name__ self owner name w).2 in
  lantz_feats_of c w' = lantz_feats_of c w /\
  forall l, l <> self -> feats w' !! l = feats w !! l.
Proof.
  intros Hget Htag Hout Hc Hdom. cbn zeta.
  rewrite Feat_set_name_unfold. cbn zeta.
  set (w1 := set_feats (<[self := set_name name (feats w !!! self)]> (feats w)) w).
  assert (classes w1 = classes w) as Hcls by done.
  assert (registries w1 = registries w) as Hregs by done.
  destruct (register_isolates attr_lantz_feats self owner name w1 d c dc)
    as [Hsee Hsame].
  { by rewrite (class_getattr_classes _ _ w1 w). }
  { by rewrite Hregs, Hcls. }
  { by rewrite Hcls. }
  { by rewrite (class_getattr_classes _ _ w1 w). }
  { by rewrite Hregs. }
  pose proof (register_frame attr_lantz_feats self owner name w1) as [Hf _].
  assert (register attr_lantz_feats self owner name w1
          = (Ret tt, (register attr_lantz_feats self owner name w1).2))
    as Hfork.
  { rewrite (register_fork attr_lantz_feats self owner name w1 d); [done|..].
    - by rewrite (class_getattr_classes _ _ w1 w).
    - by rewrite Hregs, Hcls. }
  rewrite Hfork.
  match goal with
  | |- context [at_feat self (rebuild None) ?w2] =>
      pose proof (at_feat_frame self (rebuild None) w2) as (_ & Hr & Hc');
      pose proof (at_feat_feats self (rebuild None) w2) as Hf'
  end.
  split.
  - unfold lantz_feats_of.
    rewrite (class_getattr_classes _ c _ _ Hc'), Hsee, Hc, Hr, Hsame.
    by rewrite Hregs.
  - intros l Hl. rewrite Hf', lookup_insert_ne by done.
    rewrite Hf. unfold w1. simpl. by apply lookup_insert_ne.
Qed.

Lemma class_getattr_own (a : registry_attr) (owner d : loc) (w : world) :
  own_registry a (classes w !!! owner) = Some d ->
  (class_getattr a owner w).1 = Ret d.
Proof.
  intros Hown. unfold class_getattr. cbn [omap list_omap].
  by rewrite Hown.
Qed.

(** After the registry code, whichever branch it took, the owner sees a
    registry tagged with its qualified name that maps the name to the
    descriptor and every other name to what the registry seen before
    mapped it to. *)
Lemma register_registers (a : registry_attr) (self owner : loc)
    (name : string) (w : world) (d : loc) :
  (class_getattr a owner w).1 = Ret d ->
  let r := register a self owner name w in
  let d2 :=
    if decide (__lantz_driver_cls__ (registries w !!! d)
               = Some (__qualname__ (classes w !!! owner)))
    then d else fresh (dom (registries w)) in
  r.1 = Ret tt /\
  (class_getattr a owner r.2).1 = Ret d2 /\
  registries r.2 !! d2
  = Some (mkRegistry (Some (__qualname__ (classes w !!! owner)))
            (<[name := self]> (entries (registries w !!! d)))) /\
  __qualname__ (classes r.2 !!! owner) = __qualname__ (classes w !!! owner) /\
  feats r.2 = feats w /\ dictfeats r.2 = dictfeats w.
Proof.
  intros Hget. cbn zeta. case_decide as Htag.
  - rewrite (register_in_place a self owner name w d Hget Htag). simpl.
    repeat split; try done.
    + by rewrite <- Hget; apply class_getattr_classes.
    + rewrite lookup_insert_eq. by rewrite Htag.
  - rewrite (register_fork a self owner name w d Hget Htag). simpl.
    repeat split; try done.
    + apply class_getattr_own. simpl.
      rewrite lookup_total_insert_eq. apply own_registry_set.
    + apply lookup_insert_eq.
    + rewrite lookup_total_insert_eq. apply qualname_set_own_registry.
Qed.

(** C9: when the owner sees a [_lantz_dictfeats], binding a DictFeat
    returns, having recorded the name on the DictFeat and registered it:
    the registry the owner sees afterwards carries the owner's qualified
    name and holds the entries of the registry seen before together with
    the new one.  When the registry seen before already carried that name
    it is this very dictionary that gets the entry, and the classes are as
    they were; otherwise it is a new dictionary, which becomes the owner's
    own [_lantz_dictfeats].  No other registry changes.  And that is all:
    no Feat object is touched, and the DictFeat keeps its Config store,
    which holds plain values, and its sub-descriptors; its change handler
    leaves every DictFeat as it is.  Binding a Feat, when it returns,
    leaves on the descriptor the class-level pipelines built from its
    class-level modifiers. *)
Theorem DictFeat_set_name_builds_no_pipeline (self owner : loc)
    (attr : string) (w : world) (d : loc) :
  (class_getattr attr_lantz_dictfeats owner w).1 = Ret d ->
  let r := DictFeat___set_name__ self owner attr w in
  let q := __qualname__ (classes w !!! owner) in
  let d2 :=
    if decide (__lantz_driver_cls__ (registries w !!! d) = Some q)
    then d else fresh (dom (registries w)) in
  r.1 = Ret tt /\
  (class_getattr attr_lantz_dictfeats owner r.2).1 = Ret d2 /\
  registries r.2
  = (<[d2 := mkRegistry (Some q) (<[attr := self]> (entries (registries w !!! d)))]>
       (registries w)) /\
  (__lantz_driver_cls__ (registries w !!! d) = Some q ->
   classes r.2 = classes w) /\
  (__lantz_driver_cls__ (registries w !!! d) <> Some q ->
   (d2 ∉ dom (registries w)) /\
   classes r.2
   = (<[owner := set_own_registry attr_lantz_dictfeats d2 (classes w !!! owner)]>
        (classes w))) /\
  feats r.2 = feats w /\
  dictfeats r.2
  = (<[self := d_set_name attr (dictfeats w !!! self)]> (dictfeats w)) /\
  d_name (dictfeats r.2 !!! self) = Some attr /\
  d_config (dictfeats r.2 !!! self) = d_config (dictfeats w !!! self) /\
  _subproperties (dictfeats r.2 !!! self)
  = _subproperties (dictfeats w !!! self) /\
  (forall instance key value,
     dictfeats (DictFeat_on_config_set self instance key value r.2).2
     = dictfeats r.2) /\
  (forall fself fowner fname wf,
     (Feat___set_name__ fself fowner fname wf).1 = Ret tt ->
     let f := feats (Feat___set_name__ fself fowner fname wf).2 !!! fself in
     name f = Some fname /\
     exists gp sp,
       stages_of (modifier_set f None) = Ret (gp, sp) /\
       class_config f "post_get" = CProc (rev gp) /\
       class_config f "pre_set" = CProc sp).
Proof.
  intros Hget. cbn zeta.
  set (w1 := set_dictfeats
               (<[self := d_set_name attr (dictfeats w !!! self)]> (dictfeats w))
               w).
  assert (DictFeat___set_name__ self owner attr w
          = register attr_lantz_dictfeats self owner attr w1) as -> by reflexivity.
  assert ((class_getattr attr_lantz_dictfeats owner w1).1 = Ret d) as Hget1
    by (by rewrite (class_getattr_classes _ _ w1 w)).
  destruct (register_registers attr_lantz_dictfeats self owner attr w1 d Hget1)
    as (Hret & Hsee & _ & _ & Hfeats & Hdict).
  assert (forall instance key value,
            dictfeats (DictFeat_on_config_set self instance key value
                         (register attr_lantz_dictfeats self owner attr w1).2).2
            = dictfeats (register attr_lantz_dictfeats self owner attr w1).2)
    as Hhandler.
  { intros instance key value.
    by destruct (DictFeat_on_config_set_frame self instance key value
                   (register attr_lantz_dictfeats self owner attr w1).2). }
  change (registries w1) with (registries w) in Hsee.
  change (classes w1) with (classes w) in Hsee.
  split; [exact Hret|]. split; [exact Hsee|].
  split; [|split; [|split; [|split; [exact Hfeats|split; [exact Hdict|]]]]].
  - case_decide as Htag.
    + rewrite (register_in_place _ self owner attr w1 d Hget1 Htag).
      simpl. by rewrite Htag.
    + by rewrite (register_fork _ self owner attr w1 d Hget1 Htag).
  - intros Htag.
    by rewrite (register_in_place _ self owner attr w1 d Hget1 Htag).
  - intros Htag. rewrite decide_False by done.
    split; [apply is_fresh|].
    by rewrite (register_fork _ self owner attr w1 d Hget1 Htag).
  - rewrite Hdict. unfold w1. simpl. rewrite lookup_total_insert_eq.
    split; [done|]. split; [done|]. split; [done|]. split.
    + intros instance key value. rewrite Hhandler. exact Hdict.
    + intros fself fowner fname wf. apply Feat_set_name_rebuilds.
Qed.

Lemma DictFeat_set_name_builds_no_pipeline_witness :
  let r := DictFeat___set_name__ 5%positive 2%positive "ch" ex_dict_classes in
  r.1 = Ret tt /\
  (class_getattr attr_lantz_dictfeats 2%positive r.2).1 = Ret 3%positive /\
  registries r.2 !! 3%positive
  = Some (mkRegistry (Some "Driver") {[ "ch" := 5%positive ]}) /\
  registries r.2 !! 2%positive = registries ex_dict_classes !! 2%positive /\
  _lantz_dictfeats (classes r.2 !!! 2%positive) = Some 3%positive /\
  feats r.2 = feats ex_dict_classes /\
  d_name (dictfeats r.2 !!! 5%positive) = Some "ch" /\
  d_config (dictfeats r.2 !!! 5%positive)
  = d_config (dictfeats ex_dict_classes !!! 5%positive).
Proof.
  cbn zeta.
  destruct (DictFeat_set_name_builds_no_pipeline 5%positive 2%positive "ch"
              ex_dict_classes 2%positive)
    as (Hret & Hsee & Hregs & _ & Hfork & Hfeats & _ & Hname & Hcfg & _).
  - vm_compute. reflexivity.
  - destruct Hfork as [_ Hcls]; [vm_compute; discriminate|].
    split; [exact Hret|].
    split; [rewrite Hsee; vm_compute; reflexivity|].
    split; [rewrite Hregs; vm_compute; reflexivity|].
    split; [rewrite Hregs; vm_compute; reflexivity|].
    split; [rewrite Hcls; vm_compute; reflexivity|].
    split; [exact Hfeats|].
    split; [exact Hname | exact Hcfg].
Defined.

(** ** C4 *)

(** C4, where the code departs from it: class 3 derives from class 2 and
    has the same qualified name.  When the derived class binds its own
    descriptor (location 11) under the name the parent uses for its
    descriptor (location 10), the registry it finds is already tagged with
    that name, no copy is made, and the entry of the parent is replaced:
    after the binding the parent has the descriptor of the derived class
    registered, and the derived class has no registry of its own. *)
Theorem same_qualname_subclass_replaces_parent_entry :
  __qualname__ (classes ex_classes !!! 2%positive)
  = __qualname__ (classes ex_classes !!! 3%positive) /\
  mro (classes ex_classes !!! 3%positive) = [2%positive; 1%positive] /\
  (Feat___set_name__ 10%positive 2%positive "x" ex_classes).1 = Ret tt /\
  registered 2%positive "x" ex_parent_bound = Some 10%positive /\
  (Feat___set_name__ 11%positive 3%positive "x" ex_parent_bound).1 = Ret tt /\
  registered 2%positive "x" ex_child_bound = Some 11%positive /\
  registered 3%positive "x" ex_child_bound = Some 11%positive /\
  _lantz_feats (classes ex_child_bound !!! 3%positive) = None /\
  (class_getattr attr_lantz_feats 3%positive ex_child_bound).1
  = (class_getattr attr_lantz_feats 2%positive ex_child_bound).1.
Proof. repeat split; vm_compute; reflexivity. Qed.

(** * Further properties of the code *)

(** ** Feat.rebuild *)

Lemma Feat_ext (f g : Feat) :
  name f = name g -> fget f = fget g -> fset f = fset g ->
  _config_keys f = _config_keys g -> members f = members g ->
  (forall x, config f !! x = config g !! x) ->
  f = g.
Proof.
  destruct f, g; simpl. intros -> -> -> -> -> Hcfg.
  f_equal. by apply map_eq.
Qed.

Lemma config_store_set (s : scope) (k : string) (v : cfgval) (f : Feat)
    (x : scope * string) :
  config (store_set s k v f) !! x
  = if decide ((s, k) = x) then Some v else config f !! x.
Proof. unfold store_set. simpl. apply lookup_insert. Qed.

Lemma rebuild_fields (instance : scope) (self : Feat) :
  let self' := (rebuild instance self).2 in
  name self' = name self /\ fget self' = fget self /\ fset self' = fset self /\
  _config_keys self' = _config_keys self /\ members self' = members self.
Proof.
  cbn zeta. rewrite rebuild_stages_of. by destruct (stages_of _).
Qed.

Lemma rebuild_slots (instance : scope) (self : Feat) (x : scope * string) :
  x <> (instance, "post_get") -> x <> (instance, "pre_set") ->
  config (rebuild instance self).2 !! x = config self !! x.
Proof.
  intros Hget Hset. rewrite rebuild_stages_of.
  destruct (stages_of _); simpl; [|done].
  rewrite !lookup_insert_ne; congruence.
Qed.

(** X1: a rebuild for a scope, whether it returns or raises, changes
    nothing on the descriptor but the two pipeline slots of that scope: the
    name, the accessors, the Config entries, the members, every modifier
    and every slot of every other scope stay as they were. *)
Theorem rebuild_changes_only_its_pipelines (instance : scope) (self : Feat)
    (s : scope) (k : string) :
  (s, k) <> (instance, "post_get") ->
  (s, k) <> (instance, "pre_set") ->
  let self' := (rebuild instance self).2 in
  config self' !! (s, k) = config self !! (s, k) /\
  name self' = name self /\ fget self' = fget self /\ fset self' = fset self /\
  _config_keys self' = _config_keys self /\ members self' = members self.
Proof.
  intros Hget Hset. cbn zeta. split.
  - by apply rebuild_slots.
  - apply rebuild_fields.
Qed.

Lemma rebuild_changes_only_its_pipelines_witness :
  config (rebuild (Some 1%nat) ex_feat).2 !! (None, "units")
  = config ex_feat !! (None, "units").
Proof.
  apply (rebuild_changes_only_its_pipelines (Some 1%nat) ex_feat None "units");
    discriminate.
Defined.

Lemma rebuild_again (instance : scope) (self : Feat) :
  rebuild instance (rebuild instance self).2 = rebuild instance self.
Proof.
  rewrite (rebuild_stages_of instance self).
  destruct (stages_of (modifier_set self instance)) as [[gp sp]|e] eqn:Hps;
    simpl.
  - rewrite rebuild_stages_of, modifier_set_pipelines, Hps. simpl.
    f_equal. apply Feat_ext; try done.
    intros x. rewrite !config_store_set.
    repeat case_decide; congruence.
  - by rewrite rebuild_stages_of, Hps.
Qed.

(** X2: rebuilding twice in a row for the same scope is the same as
    rebuilding once: the second call returns or raises as the first did
    and leaves the descriptor as the first left it, because the stored
    pipelines are not among the modifiers they are built from. *)
Theorem rebuild_idempotent (instance : scope) (self : Feat) :
  rebuild instance (rebuild instance self).2 = rebuild instance self /\
  modifier_set (rebuild instance self).2 instance = modifier_set self instance.
Proof.
  split; [apply rebuild_again|].
  rewrite rebuild_stages_of. destruct (stages_of _) as [[gp sp]|e]; [|done].
  apply modifier_set_pipelines.
Qed.

(** X4: each side has its own extra functions, and limits belongs to the
    write side: when rebuild can build its pipelines, the read sequence is
    determined by units, values and get_funcs alone, and the write sequence
    does not depend on get_funcs. *)
Theorem rebuild_stages_sides
    (values units limits limits' get_funcs get_funcs' set_funcs set_funcs' : pyval)
    (gp sp gp' sp' gp'' sp'' : Processor) :
  rebuild_stages values units limits get_funcs set_funcs = Ret (gp, sp) ->
  rebuild_stages values units limits' get_funcs set_funcs' = Ret (gp', sp') ->
  rebuild_stages values units limits get_funcs' set_funcs = Ret (gp'', sp'') ->
  gp' = gp /\ sp'' = sp.
Proof.
  rewrite !rebuild_stages_closed_form.
  intros (lim & Hlim & H)%outcome_bind_inv.
  apply outcome_bind_inv in H as (gf & Hgf & H).
  apply outcome_bind_inv in H as (sf & Hsf & H).
  injection H as <- <-.
  intros (lim' & Hlim' & H)%outcome_bind_inv.
  apply outcome_bind_inv in H as (gf' & Hgf' & H).
  apply outcome_bind_inv in H as (sf' & Hsf' & H).
  injection H as <- <-.
  intros (lim'' & Hlim'' & H)%outcome_bind_inv.
  apply outcome_bind_inv in H as (gf'' & Hgf'' & H).
  apply outcome_bind_inv in H as (sf'' & Hsf'' & H).
  injection H as <- <-.
  split; congruence.
Qed.

Lemma rebuild_stages_sides_witness :
  [Processor_func (PFunc "f")] = [Processor_func (PFunc "f")] /\
  [range_checker (OneRange (MyRange [PInt 0; PInt 10]))]
  = [range_checker (OneRange (MyRange [PInt 0; PInt 10]))].
Proof.
  apply (rebuild_stages_sides PNone PNone
           (PTuple [PInt 0; PInt 10]) PNone
           (PList [PFunc "f"]) (PList [PFunc "g"])
           PNone (PList [PFunc "h"])
           [Processor_func (PFunc "f")]
           [range_checker (OneRange (MyRange [PInt 0; PInt 10]))]
           [Processor_func (PFunc "f")] [Processor_func (PFunc "h")]
           [Processor_func (PFunc "g")]
           [range_checker (OneRange (MyRange [PInt 0; PInt 10]))]);
    reflexivity.
Defined.

Lemma rev_at_most_one {A} (l : list A) : (length l <= 1)%nat -> rev l = l.
Proof. destruct l as [|x [|y l]]; simpl; [done|done|lia]. Qed.

(** X5: what a read runs, first to last, after a rebuild that returned:
    the functions of get_funcs that are not None, last supplied first, then
    the reverse mapping of values if values is set, and the conversion to
    units last if units is set. *)
Theorem rebuild_read_order (instance : scope) (self self' : Feat) :
  rebuild instance self = (Ret tt, self') ->
  exists funcs,
    spec_funcs (modifier self instance "get_funcs") = Ret funcs /\
    config_get self' instance "post_get"
    = CProc (rev funcs
             ++ spec_values_read (modifier self instance "values")
             ++ spec_units_read (modifier self instance "units")).
Proof.
  intros Hrebuild.
  destruct (rebuild_returns _ _ _ Hrebuild) as (gp & sp & Hps & Hget & _).
  unfold stages_of, modifier_set in Hps.
  rewrite rebuild_stages_closed_form in Hps.
  apply outcome_bind_inv in Hps as (lim & _ & H).
  apply outcome_bind_inv in H as (gf & Hgf & H).
  apply outcome_bind_inv in H as (sf & _ & H).
  injection H as <- <-.
  exists gf. split; [done|]. rewrite Hget. f_equal.
  rewrite !rev_app_distr, <- app_assoc. f_equal. f_equal.
  - apply rev_at_most_one. unfold spec_values_read.
    destruct (truthy _); simpl; lia.
  - apply rev_at_most_one. unfold spec_units_read.
    destruct (truthy _); simpl; lia.
Qed.

Lemma rebuild_read_order_witness :
  exists funcs,
    spec_funcs
      (modifier
         (store_set None "get_funcs" (CVal (PList [PFunc "f"; PNone; PFunc "g"]))
            ex_feat) None "get_funcs") = Ret funcs /\
    config_get
      (rebuild None
         (store_set None "get_funcs" (CVal (PList [PFunc "f"; PNone; PFunc "g"]))
            ex_feat)).2 None "post_get"
    = CProc (rev funcs
             ++ spec_values_read
                  (modifier
                     (store_set None "get_funcs"
                        (CVal (PList [PFunc "f"; PNone; PFunc "g"])) ex_feat)
                     None "values")
             ++ spec_units_read
                  (modifier
                     (store_set None "get_funcs"
                        (CVal (PList [PFunc "f"; PNone; PFunc "g"])) ex_feat)
                     None "units")).
Proof.
  apply (rebuild_read_order None
           (store_set None "get_funcs" (CVal (PList [PFunc "f"; PNone; PFunc "g"]))
              ex_feat)).
  vm_compute. reflexivity.
Defined.

(** ** Feat.on_config_set *)

Lemma config_set_unfold (instance : scope) (key : string) (value : pyval)
    (self : Feat) :
  config_set instance key value self
  = Feat_on_config_set instance key value
      (store_set instance key (CVal value) self).
Proof. reflexivity. Qed.

Lemma config_set_modifier (instance : scope) (key : string) (value : pyval)
    (self : Feat) :
  key ∈ modifiers ->
  config_set instance key value self
  = rebuild instance (store_set instance key (CVal value) self).
Proof.
  intros Hkey. rewrite config_set_unfold. unfold Feat_on_config_set.
  by rewrite (is_modifier_elem key Hkey).
Qed.

Lemma config_set_other_scope (instance : scope) (key : string) (value : pyval)
    (self : Feat) (s : scope) (k : string) :
  s <> instance ->
  config (config_set instance key value self).2 !! (s, k)
  = config self !! (s, k).
Proof.
  intros Hne. rewrite config_set_unfold. unfold Feat_on_config_set.
  destruct (is_modifier key); simpl.
  - rewrite rebuild_slots by congruence. apply lookup_insert_ne. congruence.
  - apply lookup_insert_ne. congruence.
Qed.

(** X6: a class-level assignment of a modifier rebuilds the class-level
    pipelines only.  An instance that has pipelines of its own, and no
    override of that modifier, keeps them as they are although the value it
    inherits has changed. *)
Theorem class_level_change_keeps_instance_pipelines (key : string)
    (value : pyval) (i : nat) (self : Feat) (p : cfgval) :
  key ∈ modifiers ->
  config self !! (Some i, key) = None ->
  config self !! (Some i, "post_get") = Some p ->
  let self' := (py_setattr key value self).2 in
  modifier self' (Some i) key = value /\
  config_get self' (Some i) "post_get" = p.
Proof.
  intros Hkey Hnone Hpipe. cbn zeta. unfold py_setattr. split.
  - unfold modifier, config_get.
    rewrite config_set_other_scope by done.
    unfold scope in *. rewrite Hnone.
    unfold class_config. rewrite config_set_unfold.
    rewrite Feat_on_config_set_keeps_slot. simpl.
    by rewrite lookup_insert_eq.
  - apply config_get_override. rewrite config_set_other_scope by done.
    exact Hpipe.
Qed.

Lemma class_level_change_keeps_instance_pipelines_witness :
  modifier (py_setattr "values" (PSet [PInt 1; PInt 2]) (feats ex_world_mV !!! 10%positive)).2
    (Some 1%nat) "values"
  = PSet [PInt 1; PInt 2] /\
  config_get
    (py_setattr "values" (PSet [PInt 1; PInt 2]) (feats ex_world_mV !!! 10%positive)).2
    (Some 1%nat) "post_get"
  = CProc [to_quantity_converter (PStr "mV")].
Proof.
  apply (class_level_change_keeps_instance_pipelines "values"
           (PSet [PInt 1; PInt 2]) 1 (feats ex_world_mV !!! 10%positive)
           (CProc [to_quantity_converter (PStr "mV")])).
  - refine (bool_decide_unpack _ _). vm_compute. exact I.
  - vm_compute. reflexivity.
  - vm_compute. reflexivity.
Defined.

(** X7: a value assigned directly to the [post_get] slot of a scope lasts
    until the next modifier assignment at that scope: the rebuild that
    assignment triggers puts the constructed read pipeline in its place. *)
Theorem pipeline_slot_is_rebuilt (instance : scope) (key : string)
    (direct value : pyval) (self self' : Feat) :
  key ∈ modifiers ->
  config_set instance key value
    (config_set instance "post_get" direct self).2 = (Ret tt, self') ->
  config_get (config_set instance "post_get" direct self).2 instance "post_get"
  = CVal direct /\
  exists gp sp,
    stages_of (modifier_set self' instance) = Ret (gp, sp) /\
    config_get self' instance "post_get" = CProc (rev gp).
Proof.
  intros Hkey Hset. split.
  - rewrite config_set_unfold. rewrite Feat_on_config_set_other_key by done.
    apply config_get_store_set_eq.
  - rewrite config_set_modifier in Hset by done.
    destruct (rebuild_returns _ _ _ Hset) as (gp & sp & Hps & Hget & _).
    exists gp, sp. split; [|done].
    rewrite rebuild_stages_of, Hps in Hset. simpl in Hset.
    injection Hset as <-. by rewrite modifier_set_pipelines.
Qed.

Lemma pipeline_slot_is_rebuilt_witness :
  config_get (config_set (Some 1%nat) "post_get" (PFunc "f") ex_feat).2
    (Some 1%nat) "post_get"
  = CVal (PFunc "f") /\
  exists gp sp,
    stages_of
      (modifier_set
         (config_set (Some 1%nat) "units" (PStr "mV")
            (config_set (Some 1%nat) "post_get" (PFunc "f") ex_feat).2).2
         (Some 1%nat)) = Ret (gp, sp) /\
    config_get
      (config_set (Some 1%nat) "units" (PStr "mV")
         (config_set (Some 1%nat) "post_get" (PFunc "f") ex_feat).2).2
      (Some 1%nat) "post_get"
    = CProc (rev gp).
Proof.
  apply (pipeline_slot_is_rebuilt (Some 1%nat) "units" (PFunc "f") (PStr "mV")
           ex_feat).
  - refine (bool_decide_unpack _ _). vm_compute. exact I.
  - vm_compute. reflexivity.
Defined.

Lemma store_set_twice (instance : scope) (key : string) (v v' : cfgval)
    (self : Feat) :
  store_set instance key v (store_set instance key v' self)
  = store_set instance key v self.
Proof.
  apply Feat_ext; try done. intros x. rewrite !config_store_set.
  by case_decide.
Qed.

(** X8: assigning the same value to the same Config entry at the same scope
    twice in a row is the same as assigning it once: the second assignment
    returns or raises as the first did and leaves the descriptor as the
    first left it. *)
Theorem config_set_idempotent (instance : scope) (key : string)
    (value : pyval) (self : Feat) :
  config_set instance key value (config_set instance key value self).2
  = config_set instance key value self.
Proof.
  destruct (is_modifier key) eqn:Hmod.
  - apply bool_decide_eq_true in Hmod.
    rewrite !config_set_modifier by done.
    set (stored := store_set instance key (CVal value) self).
    assert (store_set instance key (CVal value) (rebuild instance stored).2
            = (rebuild instance stored).2) as ->; [|apply rebuild_again].
    destruct (is_modifier_not_pipeline key (is_modifier_elem key Hmod))
      as [Hget Hset].
    destruct (rebuild_fields instance stored) as (? & ? & ? & ? & ?).
    apply Feat_ext; try done.
    intros x. rewrite config_store_set. case_decide as Hx; [|done].
    subst x. rewrite rebuild_slots by congruence.
    unfold stored. by rewrite config_store_set, decide_True.
  - rewrite !config_set_unfold, !Feat_on_config_set_other_key by done.
    simpl. by rewrite store_set_twice.
Qed.

(** X9: two different modifiers can be assigned at a scope in either
    order: when all four assignments return, both orders leave the
    descriptor in the same state. *)
Theorem config_set_modifiers_commute (instance : scope) (k1 k2 : string)
    (v1 v2 : pyval) (self f12 f21 : Feat) :
  k1 ∈ modifiers -> k2 ∈ modifiers -> k1 <> k2 ->
  (config_set instance k1 v1 self).1 = Ret tt ->
  (config_set instance k2 v2 self).1 = Ret tt ->
  config_set instance k2 v2 (config_set instance k1 v1 self).2 = (Ret tt, f12) ->
  config_set instance k1 v1 (config_set instance k2 v2 self).2 = (Ret tt, f21) ->
  f12 = f21.
Proof.
  intros Hk1 Hk2 Hne.
  destruct (is_modifier_not_pipeline k1 (is_modifier_elem k1 Hk1)) as [Hg1 Hs1].
  destruct (is_modifier_not_pipeline k2 (is_modifier_elem k2 Hk2)) as [Hg2 Hs2].
  rewrite !config_set_modifier by done.
  rewrite !(rebuild_stages_of instance (store_set instance _ _ self)).
  destruct (stages_of (modifier_set (store_set instance k1 (CVal v1) self) instance))
    as [[gp1 sp1]|e1]; [|discriminate].
  destruct (stages_of (modifier_set (store_set instance k2 (CVal v2) self) instance))
    as [[gp2 sp2]|e2]; [|discriminate].
  simpl. intros _ _.
  rewrite !rebuild_stages_of.
  assert (modifier_set
            (store_set instance k2 (CVal v2)
               (store_set instance "pre_set" (CProc sp1)
                  (store_set instance "post_get" (CProc (reversed gp1))
                     (store_set instance k1 (CVal v1) self)))) instance
          = modifier_set
              (store_set instance k1 (CVal v1)
                 (store_set instance "pre_set" (CProc sp2)
                    (store_set instance "post_get" (CProc (reversed gp2))
                       (store_set instance k2 (CVal v2) self)))) instance)
    as Hms.
  { apply modifier_set_ext. intros k Hk%is_modifier_elem.
    apply is_modifier_not_pipeline in Hk as [Hkg Hks].
    unfold modifier, config_get, class_config.
    destruct instance; rewrite !config_store_set;
      repeat case_decide; congruence. }
  rewrite Hms. destruct (stages_of _) as [[gp sp]|e]; [|discriminate].
  simpl. intros [= <-] [= <-].
  apply Feat_ext; try done.
  intros x. rewrite !config_store_set. repeat case_decide; congruence.
Qed.

Lemma config_set_modifiers_commute_witness :
  (config_set (Some 1%nat) "limits" (PTuple [PInt 0; PInt 10])
     (config_set (Some 1%nat) "units" (PStr "mV") ex_feat).2).2
  = (config_set (Some 1%nat) "units" (PStr "mV")
       (config_set (Some 1%nat) "limits" (PTuple [PInt 0; PInt 10]) ex_feat).2).2.
Proof.
  apply (config_set_modifiers_commute (Some 1%nat) "units" "limits"
           (PStr "mV") (PTuple [PInt 0; PInt 10]) ex_feat).
  - refine (bool_decide_unpack _ _). vm_compute. exact I.
  - refine (bool_decide_unpack _ _). vm_compute. exact I.
  - discriminate.
  - vm_compute. reflexivity.
  - vm_compute. reflexivity.
  - vm_compute. reflexivity.
  - vm_compute. reflexivity.
Defined.

(** ** The proxies *)

Lemma config_set_fields (instance : scope) (key : string) (value : pyval)
    (self : Feat) :
  let self' := (config_set instance key value self).2 in
  name self' = name self /\ fget self' = fget self /\ fset self' = fset self /\
  _config_keys self' = _config_keys self /\ members self' = members self.
Proof.
  cbn zeta. rewrite config_set_unfold. unfold Feat_on_config_set.
  destruct (is_modifier key); simpl; [|done].
  apply (rebuild_fields instance (store_set instance key (CVal value) self)).
Qed.

Lemma config_set_slot (instance : scope) (key : string) (value : pyval)
    (self : Feat) :
  config (config_set instance key value self).2 !! (instance, key)
  = Some (CVal value).
Proof.
  rewrite config_set_unfold, Feat_on_config_set_keeps_slot. simpl.
  apply lookup_insert_eq.
Qed.

Lemma FeatProxy_setattr_rejects (p : FeatProxy.t) item value w :
  item ∉ _config_keys (feats w !!! FeatProxy.proxied p) ->
  (FeatProxy.__setattr__ p item value w).2 = w.
Proof.
  intros Hout. unfold FeatProxy.__setattr__, mbind, St_bind, get_state, raise.
  by rewrite bool_decide_eq_false_2.
Qed.

(** X10: a write through a FeatProxy, whatever its name, value and
    outcome, stays within the scope of the proxy's instance: no other
    object changes, and on the proxied descriptor the class-level values,
    the slots of every other instance, the Config entries and the
    accessors are as before. *)
Theorem FeatProxy_setattr_stays_in_scope (p : FeatProxy.t) (item : string)
    (value : pyval) (w : world) :
  let w' := (FeatProxy.__setattr__ p item value w).2 in
  let feat := feats w !!! FeatProxy.proxied p in
  let feat' := feats w' !!! FeatProxy.proxied p in
  dictfeats w' = dictfeats w /\
  registries w' = registries w /\
  classes w' = classes w /\
  (forall l, l <> FeatProxy.proxied p -> feats w' !!! l = feats w !!! l) /\
  (forall s k, s <> Some (FeatProxy.instance p) ->
               config feat' !! (s, k) = config feat !! (s, k)) /\
  _config_keys feat' = _config_keys feat /\
  fget feat' = fget feat /\ fset feat' = fset feat /\ name feat' = name feat.
Proof.
  cbn zeta.
  destruct (decide (item ∈ _config_keys (feats w !!! FeatProxy.proxied p)))
    as [Hin|Hout].
  - rewrite FeatProxy_setattr_accepts by done.
    destruct (at_feat_frame (FeatProxy.proxied p)
                (config_set (Some (FeatProxy.instance p)) item value) w)
      as (-> & -> & ->).
    rewrite at_feat_feats.
    destruct (config_set_fields (Some (FeatProxy.instance p)) item value
                (feats w !!! FeatProxy.proxied p)) as (? & ? & ? & ? & ?).
    rewrite lookup_total_insert_eq. repeat split; try done.
    + intros l Hl. by rewrite lookup_total_insert_ne.
    + intros s k Hs. by apply config_set_other_scope.
  - rewrite FeatProxy_setattr_rejects by done. by repeat split.
Qed.

Lemma FeatProxy_setattr_stays_in_scope_witness :
  config (feats (FeatProxy.__setattr__ ex_proxy "units" (PStr "mV") ex_world).2
            !!! FeatProxy.proxied ex_proxy) !! (None, "units")
  = config (feats ex_world !!! FeatProxy.proxied ex_proxy) !! (None, "units").
Proof.
  destruct (FeatProxy_setattr_stays_in_scope ex_proxy "units" (PStr "mV")
              ex_world) as (_ & _ & _ & _ & Hscope & _).
  apply Hscope. discriminate.
Defined.

(** X11: what is written through a proxy is what the proxy reads back: for
    every Config entry of the proxied descriptor, a read of the name right
    after a write of it returns the value written, whether or not the
    rebuild that the write triggered returned.  This holds for FeatProxy
    and for DictFeatProxy. *)
Theorem proxy_write_then_read :
  (forall (p : FeatProxy.t) (item : string) (value : pyval) (w : world),
     item ∈ _config_keys (feats w !!! FeatProxy.proxied p) ->
     let w' := (FeatProxy.__setattr__ p item value w).2 in
     FeatProxy.__getattr__ p item w' = (Ret (Plain (CVal value)), w')) /\
  (forall (p : DictFeatProxy.t) (item : string) (value : pyval) (w : world),
     item ∈ d_config_keys (dictfeats w !!! DictFeatProxy.proxied p) ->
     let w' := (DictFeatProxy.__setattr__ p item value w).2 in
     DictFeatProxy.__getattr__ p item w' = (Ret (Plain (CVal value)), w')).
Proof.
  split; intros p item value w Hin; cbn zeta.
  - rewrite FeatProxy_setattr_accepts by done.
    unfold FeatProxy.__getattr__, mbind, St_bind, get_state.
    rewrite at_feat_feats, lookup_total_insert_eq.
    destruct (config_set_fields (Some (FeatProxy.instance p)) item value
                (feats w !!! FeatProxy.proxied p)) as (_ & _ & _ & -> & _).
    rewrite bool_decide_eq_true_2 by done.
    by rewrite (config_get_override _ _ _ _ (config_set_slot _ _ _ _)).
  - rewrite DictFeatProxy_setattr_accepts by done.
    rewrite DictFeat_config_set_unfold.
    unfold DictFeatProxy.__getattr__, mbind, St_bind, get_state.
    match goal with
    | |- context [DictFeat_on_config_set ?self ?i ?k ?v ?w0] =>
        destruct (DictFeat_on_config_set_frame self i k v w0) as (-> & _)
    end.
    simpl. rewrite lookup_total_insert_eq.
    rewrite bool_decide_eq_true_2 by done.
    unfold d_config_get, d_store_set. simpl. by rewrite lookup_insert_eq.
Qed.

Lemma proxy_write_then_read_witness :
  FeatProxy.__getattr__ ex_proxy "limits"
    (FeatProxy.__setattr__ ex_proxy "limits" (PInt 5) ex_world).2
  = (Ret (Plain (CVal (PInt 5))),
     (FeatProxy.__setattr__ ex_proxy "limits" (PInt 5) ex_world).2).
Proof.
  destruct proxy_write_then_read as [Hfeat _].
  apply (Hfeat ex_proxy "limits" (PInt 5) ex_world).
  refine (bool_decide_unpack _ _). vm_compute. exact I.
Defined.

(** X12: a modifier written through a FeatProxy is stored before the
    descriptor is rebuilt.  When the construction raises for the new value
    the write raises the same exception, the value stays as the override of
    the instance, and the pipelines of the instance stay those built from
    the old modifiers. *)
Theorem FeatProxy_setattr_failed_rebuild (p : FeatProxy.t) (item : string)
    (value : pyval) (w : world) (e : exn) :
  let feat := feats w !!! FeatProxy.proxied p in
  let i := Some (FeatProxy.instance p) in
  item ∈ _config_keys feat ->
  item ∈ modifiers ->
  stages_of (modifier_set (store_set i item (CVal value) feat) i) = Raise e ->
  let r := FeatProxy.__setattr__ p item value w in
  r.1 = Raise e /\
  feats r.2 !!! FeatProxy.proxied p = store_set i item (CVal value) feat /\
  config_get (feats r.2 !!! FeatProxy.proxied p) i item = CVal value /\
  config_get (feats r.2 !!! FeatProxy.proxied p) i "post_get"
  = config_get feat i "post_get" /\
  config_get (feats r.2 !!! FeatProxy.proxied p) i "pre_set"
  = config_get feat i "pre_set".
Proof.
  cbn zeta. intros Hin Hmod Hraise.
  destruct (is_modifier_not_pipeline item (is_modifier_elem item Hmod))
    as [Hget Hset].
  rewrite FeatProxy_setattr_accepts by done.
  rewrite at_feat_outcome, at_feat_feats, lookup_total_insert_eq.
  rewrite config_set_modifier by done.
  rewrite rebuild_stages_of, Hraise. cbn [fst snd].
  split; [done|]. split; [done|]. split; [|split].
  - apply config_get_store_set_eq.
  - by apply config_get_store_set_ne.
  - by apply config_get_store_set_ne.
Qed.

Lemma FeatProxy_setattr_failed_rebuild_witness :
  (FeatProxy.__setattr__ ex_proxy "limits" (PInt 5) ex_world_mV).1
  = Raise TypeError /\
  config_get
    (feats (FeatProxy.__setattr__ ex_proxy "limits" (PInt 5) ex_world_mV).2
       !!! FeatProxy.proxied ex_proxy) (Some 1%nat) "post_get"
  = config_get (feats ex_world_mV !!! FeatProxy.proxied ex_proxy) (Some 1%nat)
      "post_get".
Proof.
  destruct (FeatProxy_setattr_failed_rebuild ex_proxy "limits" (PInt 5)
              ex_world_mV TypeError) as (Hraise & _ & _ & Hget & _).
  - refine (bool_decide_unpack _ _). vm_compute. exact I.
  - refine (bool_decide_unpack _ _). vm_compute. exact I.
  - vm_compute. reflexivity.
  - split; [exact Hraise | exact Hget].
Defined.

(** ** DictFeat *)

Lemma for_in_app {S A} (l1 l2 : list A) (body : A -> St S unit) (s : S) :
  for_in (l1 ++ l2) body s
  = match for_in l1 body s with
    | (Ret _, s') => for_in l2 body s'
    | (Raise e, s') => (Raise e, s')
    end.
Proof.
  revert s. induction l1 as [|x l1 IH]; intros s; simpl; [done|].
  unfold mbind, St_bind. destruct (body x s) as [[[]|e] s1]; [|done].
  apply IH.
Qed.

(** X13: the propagation to the sub-descriptors is not all-or-nothing.  It
    visits the entries of [_subproperties] in order and stops at the first
    one that cannot be rebuilt with the new value: the handler raises that
    exception, the entries before it are updated and rebuilt, the failing
    one holds the new value with its old pipelines, and the ones after it
    are not touched. *)
Theorem DictFeat_on_config_set_stops_at_failure (self : loc) (instance : scope)
    (key : string) (value : pyval) (w : world)
    (pre post : list (nat * pyval * loc)) (sk : nat * pyval) (l : loc)
    (e : exn) :
  key ∈ modifiers ->
  _subproperties (dictfeats w !!! self) = pre ++ (sk, l) :: post ->
  (forall l', l' ∈ pre.*2 -> rebuildable key value (feats w !!! l')) ->
  l ∉ pre.*2 ->
  stages_of (modifier_set (store_set None key (CVal value) (feats w !!! l)) None)
  = Raise e ->
  let r := DictFeat_on_config_set self instance key value w in
  r.1 = Raise e /\
  (forall l', l' ∈ pre.*2 -> updated key value (feats r.2 !!! l')) /\
  feats r.2 !!! l = store_set None key (CVal value) (feats w !!! l) /\
  (forall l', l' ∉ pre.*2 -> l' <> l -> feats r.2 !! l' = feats w !! l').
Proof.
  intros Hkey Hsubs Hpre Hfresh Hraise. cbn zeta.
  unfold DictFeat_on_config_set. rewrite (is_modifier_elem key Hkey). simpl.
  unfold mbind, St_bind, get_state. rewrite Hsubs, for_in_app.
  destruct (for_in_py_setattr key value Hkey pre w Hpre) as [Hret Hall].
  destruct (for_in_at_feat_frame pre (py_setattr key value) w)
    as (_ & _ & _ & Hframe).
  destruct (for_in pre _ w) as [[[]|e'] w1]; [|discriminate].
  simpl in Hall, Hframe. simpl.
  assert (feats w1 !!! l = feats w !!! l) as Hl
    by (by rewrite !lookup_total_alt, Hframe).
  unfold mbind, St_bind, at_feat, py_setattr. simpl.
  rewrite config_set_modifier, Hl, rebuild_stages_of, Hraise by done.
  simpl. split; [done|]. split; [|split].
  - intros l' Hl'. rewrite lookup_total_insert_ne; [by apply Hall|].
    by intros ->.
  - apply lookup_total_insert_eq.
  - intros l' Hl' Hne. rewrite lookup_insert_ne by done. by apply Hframe.
Qed.

Lemma DictFeat_on_config_set_stops_at_failure_witness :
  (DictFeat_on_config_set 5%positive (Some 1%nat) "limits" (PInt 5)
     ex_dict_world).1 = Raise TypeError /\
  feats (DictFeat_on_config_set 5%positive (Some 1%nat) "limits" (PInt 5)
           ex_dict_world).2 !! 21%positive
  = feats ex_dict_world !! 21%positive.
Proof.
  destruct (DictFeat_on_config_set_stops_at_failure 5%positive (Some 1%nat)
              "limits" (PInt 5) ex_dict_world []
              [((2%nat, PStr "a"), 21%positive)] (1%nat, PStr "a")
              20%positive TypeError) as (Hraise & _ & _ & Hrest).
  - refine (bool_decide_unpack _ _). vm_compute. exact I.
  - reflexivity.
  - intros l' Hl'. by apply elem_of_nil in Hl'.
  - apply not_elem_of_nil.
  - vm_compute. reflexivity.
  - split; [exact Hraise|]. apply Hrest; [apply not_elem_of_nil|discriminate].
Defined.

(** X14: the change handler of a DictFeat reaches the Feat objects listed
    in [_subproperties] and nothing else: the DictFeat objects, the
    registries, the classes and every other Feat object are as before,
    whatever the outcome.  For a key that is not a modifier, and for a
    DictFeat without materialized sub-descriptors, it returns and changes
    nothing at all. *)
Theorem DictFeat_on_config_set_reach (self : loc) (instance : scope)
    (key : string) (value : pyval) (w : world) :
  let r := DictFeat_on_config_set self instance key value w in
  dictfeats r.2 = dictfeats w /\
  registries r.2 = registries w /\
  classes r.2 = classes w /\
  (forall l, l ∉ (_subproperties (dictfeats w !!! self)).*2 ->
             feats r.2 !! l = feats w !! l) /\
  (key ∉ modifiers \/ _subproperties (dictfeats w !!! self) = [] ->
   r = (Ret tt, w)).
Proof.
  cbn zeta.
  destruct (DictFeat_on_config_set_frame self instance key value w)
    as (Hd & Hr & Hc & Hf).
  repeat split; try done.
  intros [Hkey | Hnone]; unfold DictFeat_on_config_set.
  - unfold is_modifier. by rewrite bool_decide_eq_false_2.
  - destruct (negb (is_modifier key)); [done|].
    unfold mbind, St_bind, get_state. by rewrite Hnone.
Qed.

Lemma DictFeat_on_config_set_reach_witness :
  DictFeat_on_config_set 5%positive (Some 1%nat) "read_once" (PInt 1)
    ex_dict_world
  = (Ret tt, ex_dict_world).
Proof.
  destruct (DictFeat_on_config_set_reach 5%positive (Some 1%nat) "read_once"
              (PInt 1) ex_dict_world) as (_ & _ & _ & _ & Hnoop).
  apply Hnoop. left.
  refine (bool_decide_unpack _ _). vm_compute. exact I.
Defined.

Lemma build_subproperty_modifier (self : DictFeat) (key getter setter : pyval)
    (instance s : scope) (k : string) :
  k ∈ d_config_keys self ->
  modifier (build_subproperty self key getter setter instance) s k
  = d_config_get self instance k.
Proof.
  intros Hk. unfold modifier, config_get, class_config.
  unfold build_subproperty, Feat_init, config_iter. simpl.
  destruct s as [i|].
  - rewrite Feat_init_config_instance, lookup_empty.
    rewrite Feat_init_config_class. by rewrite decide_True.
  - rewrite Feat_init_config_class. by rewrite decide_True.
Qed.

(** X15: a sub-descriptor bakes in the scope it was materialized for.
    Rebuilt for any scope at all, class level or any instance, the
    descriptor returned by build_subproperty gets the pipelines that the
    modifiers of the DictFeat give for the scope passed to
    build_subproperty. *)
Theorem build_subproperty_pipelines (self : DictFeat)
    (key getter setter : pyval) (instance s : scope) (gp sp : Processor) :
  modifiers ⊆ d_config_keys self ->
  rebuild_stages (d_config_get self instance "values")
    (d_config_get self instance "units") (d_config_get self instance "limits")
    (d_config_get self instance "get_funcs")
    (d_config_get self instance "set_funcs") = Ret (gp, sp) ->
  exists p,
    rebuild s (build_subproperty self key getter setter instance) = (Ret tt, p) /\
    config_get p s "post_get" = CProc (rev gp) /\
    config_get p s "pre_set" = CProc sp.
Proof.
  intros Hkeys Hps.
  assert (stages_of
            (modifier_set (build_subproperty self key getter setter instance) s)
          = Ret (gp, sp)) as Hstages.
  { rewrite <- Hps. unfold stages_of, modifier_set.
    rewrite !build_subproperty_modifier; [done|..]; apply Hkeys;
      unfold modifiers; repeat (first [by left | right]). }
  rewrite rebuild_stages_of, Hstages. eexists. split; [done|]. simpl. split.
  - change (config_get
              (store_set s "pre_set" (CProc sp)
                 (store_set s "post_get" (CProc (reversed gp))
                    (build_subproperty self key getter setter instance)))
              s "post_get" = CProc (rev gp)).
    rewrite config_get_store_set_ne by done. apply config_get_store_set_eq.
  - change (config_get
              (store_set s "pre_set" (CProc sp)
                 (store_set s "post_get" (CProc (reversed gp))
                    (build_subproperty self key getter setter instance)))
              s "pre_set" = CProc sp).
    apply config_get_store_set_eq.
Qed.

Lemma build_subproperty_pipelines_witness :
  exists p,
    rebuild (Some 2%nat)
      (build_subproperty
         (d_store_set (Some 1%nat) "units" (PStr "mV") ex_dictfeat)
         (PStr "a") (PFunc "get_ch_a") (PFunc "set_ch_a") (Some 1%nat))
    = (Ret tt, p) /\
    config_get p (Some 2%nat) "post_get"
    = CProc (rev [to_quantity_converter (PStr "mV")]) /\
    config_get p (Some 2%nat) "pre_set"
    = CProc [to_magnitude_converter (PStr "mV")].
Proof.
  apply (build_subproperty_pipelines
           (d_store_set (Some 1%nat) "units" (PStr "mV") ex_dictfeat)
           (PStr "a") (PFunc "get_ch_a") (PFunc "set_ch_a")
           (Some 1%nat) (Some 2%nat)).
  - intros k Hk. exact Hk.
  - vm_compute. reflexivity.
Defined.

(** ** Binding: what the owner sees afterwards *)

Lemma Feat_set_name_world (self owner : loc) (attr : string) (w : world) :
  let w1 := set_feats (<[self := set_name attr (feats w !!! self)]> (feats w)) w in
  let w' := (Feat___set_name__ self owner attr w).2 in
  registries w' = registries (register attr_lantz_feats self owner attr w1).2 /\
  classes w' = classes (register attr_lantz_feats self owner attr w1).2 /\
  dictfeats w' = dictfeats w /\
  name (feats w' !!! self) = Some attr /\
  forall l, l <> self -> feats w' !! l = feats w !! l.
Proof.
  cbn zeta. rewrite Feat_set_name_unfold. cbn zeta.
  set (w1 := set_feats (<[self := set_name attr (feats w !!! self)]> (feats w)) w).
  pose proof (register_frame attr_lantz_feats self owner attr w1) as [Hf Hd].
  destruct (register attr_lantz_feats self owner attr w1) as [[[]|e] w2];
    simpl in *.
  - destruct (at_feat_frame self (rebuild None) w2) as (Hd' & Hr' & Hc').
    rewrite Hd', Hr', Hc', at_feat_feats, lookup_total_insert_eq.
    rewrite rebuild_keeps_name, Hf, Hd.
    unfold w1. simpl. rewrite lookup_total_insert_eq.
    repeat split; try done.
    intros l Hl. by rewrite !lookup_insert_ne.
  - rewrite Hf, Hd. unfold w1. simpl. rewrite lookup_total_insert_eq.
    repeat split; try done.
    intros l Hl. by rewrite lookup_insert_ne.
Qed.

(** X16: when some class of the owner's resolution order has a
    [_lantz_feats], binding a Feat always registers it, even if the rebuild
    at the end of the binding raises: afterwards the registry the owner
    sees is tagged with the owner's qualified name, maps the name to the
    descriptor, and maps every other name to what the registry seen before
    the binding mapped it to (so a derived class starts from the entries
    it inherits); the descriptor carries the name, and no other Feat object
    and no DictFeat object has changed. *)
Theorem Feat_set_name_registers (self owner : loc) (attr : string)
    (w : world) (d : loc) :
  (class_getattr attr_lantz_feats owner w).1 = Ret d ->
  let w' := (Feat___set_name__ self owner attr w).2 in
  (exists r,
     lantz_feats_of owner w' = Some r /\
     __lantz_driver_cls__ r = Some (__qualname__ (classes w !!! owner)) /\
     entries r !! attr = Some self /\
     forall other, other <> attr ->
       entries r !! other = entries (registries w !!! d) !! other) /\
  name (feats w' !!! self) = Some attr /\
  (forall l, l <> self -> feats w' !! l = feats w !! l) /\
  dictfeats w' = dictfeats w.
Proof.
  intros Hget. cbn zeta.
  destruct (Feat_set_name_world self owner attr w)
    as (Hregs & Hcls & Hdict & Hname & Hothers).
  set (w1 := set_feats (<[self := set_name attr (feats w !!! self)]> (feats w)) w)
    in *.
  destruct (register_registers attr_lantz_feats self owner attr w1 d)
    as (_ & Hsee & Hentry & _).
  { by rewrite (class_getattr_classes _ _ w1 w). }
  repeat split; try done.
  eexists. split.
  - unfold lantz_feats_of.
    rewrite (class_getattr_classes _ owner _ _ Hcls), Hsee, Hregs.
    exact Hentry.
  - simpl. split; [done|]. split; [apply lookup_insert_eq|].
    intros other Hother. by apply lookup_insert_ne.
Qed.

Lemma Feat_set_name_registers_witness :
  (exists r,
     lantz_feats_of 3%positive ex_child_bound = Some r /\
     __lantz_driver_cls__ r
     = Some (__qualname__ (classes ex_parent_bound !!! 3%positive)) /\
     entries r !! "x" = Some 11%positive /\
     forall other, other <> "x" ->
       entries r !! other
       = entries (registries ex_parent_bound !!! 2%positive) !! other) /\
  name (feats ex_child_bound !!! 11%positive) = Some "x" /\
  (forall l, l <> 11%positive ->
             feats ex_child_bound !! l = feats ex_parent_bound !! l) /\
  dictfeats ex_child_bound = dictfeats ex_parent_bound.
Proof.
  apply (Feat_set_name_registers 11%positive 3%positive "x" ex_parent_bound
           2%positive).
  vm_compute. reflexivity.
Defined.

Lemma Feat_set_name_sees (self owner : loc) (attr : string) (w : world)
    (d : loc) :
  (class_getattr attr_lantz_feats owner w).1 = Ret d ->
  let w' := (Feat___set_name__ self owner attr w).2 in
  let q := __qualname__ (classes w !!! owner) in
  let d2 :=
    if decide (__lantz_driver_cls__ (registries w !!! d) = Some q)
    then d else fresh (dom (registries w)) in
  (class_getattr attr_lantz_feats owner w').1 = Ret d2 /\
  registries w' !! d2
  = Some (mkRegistry (Some q) (<[attr := self]> (entries (registries w !!! d)))) /\
  __qualname__ (classes w' !!! owner) = q /\
  (__lantz_driver_cls__ (registries w !!! d) = Some q -> classes w' = classes w).
Proof.
  intros Hget. cbn zeta.
  destruct (Feat_set_name_world self owner attr w) as (Hregs & Hcls & _).
  set (w1 := set_feats (<[self := set_name attr (feats w !!! self)]> (feats w)) w)
    in *.
  assert ((class_getattr attr_lantz_feats owner w1).1 = Ret d) as Hget1
    by (by rewrite (class_getattr_classes _ _ w1 w)).
  destruct (register_registers attr_lantz_feats self owner attr w1 d Hget1)
    as (_ & Hsee & Hentry & Hq & _).
  rewrite (class_getattr_classes _ owner _ _ Hcls), Hregs, Hcls.
  repeat split; try done.
  intros Htag.
  by rewrite (register_in_place attr_lantz_feats self owner attr w1 d Hget1 Htag).
Qed.

(** X18: descriptors bound one after the other to the same class end up in
    one registry.  The first binding leaves the class with a registry
    tagged with its qualified name, so the second finds the tag, makes no
    copy and leaves the classes as they are; afterwards the class has both
    descriptors registered, each under its name. *)
Theorem second_binding_adds_in_place (s1 s2 owner : loc) (n1 n2 : string)
    (w : world) (d : loc) :
  n1 <> n2 ->
  (class_getattr attr_lantz_feats owner w).1 = Ret d ->
  let w1 := (Feat___set_name__ s1 owner n1 w).2 in
  let w2 := (Feat___set_name__ s2 owner n2 w1).2 in
  registered owner n1 w2 = Some s1 /\
  registered owner n2 w2 = Some s2 /\
  (class_getattr attr_lantz_feats owner w2).1
  = (class_getattr attr_lantz_feats owner w1).1 /\
  classes w2 = classes w1.
Proof.
  intros Hne Hget. cbn zeta.
  destruct (Feat_set_name_sees s1 owner n1 w d Hget)
    as (Hsee1 & Hreg1 & Hq1 & _).
  set (w1 := (Feat___set_name__ s1 owner n1 w).2) in *.
  set (d1 := if decide (__lantz_driver_cls__ (registries w !!! d)
                        = Some (__qualname__ (classes w !!! owner)))
             then d else fresh (dom (registries w))) in *.
  assert (__lantz_driver_cls__ (registries w1 !!! d1)
          = Some (__qualname__ (classes w1 !!! owner))) as Htag.
  { rewrite (lookup_total_correct _ _ _ Hreg1), Hq1. done. }
  destruct (Feat_set_name_sees s2 owner n2 w1 d1 Hsee1)
    as (Hsee2 & Hreg2 & _ & Hcls).
  rewrite decide_True in Hsee2, Hreg2 by done.
  rewrite (lookup_total_correct _ _ _ Hreg1) in Hreg2. simpl in Hreg2.
  unfold registered, lantz_feats_of. rewrite Hsee2, Hreg2. simpl.
  repeat split.
  - rewrite lookup_insert_ne by done. apply lookup_insert_eq.
  - apply lookup_insert_eq.
  - by rewrite Hsee1.
  - by apply Hcls.
Qed.

Lemma second_binding_adds_in_place_witness :
  registered 2%positive "x"
    (Feat___set_name__ 11%positive 2%positive "y"
       (Feat___set_name__ 10%positive 2%positive "x" ex_classes).2).2
  = Some 10%positive /\
  registered 2%positive "y"
    (Feat___set_name__ 11%positive 2%positive "y"
       (Feat___set_name__ 10%positive 2%positive "x" ex_classes).2).2
  = Some 11%positive.
Proof.
  destruct (second_binding_adds_in_place 10%positive 11%positive 2%positive
              "x" "y" ex_classes 1%positive) as (Hx & Hy & _).
  - discriminate.
  - vm_compute. reflexivity.
  - split; [exact Hx | exact Hy].
Defined.

(** X19: isolation, where the code achieves it.  When the registry the
    owner sees is not tagged with the owner's qualified name, binding a
    Feat to the owner leaves what every class outside the owner's
    descendants sees as its registry exactly as it was, and leaves every
    other Feat object as it was: the parent keeps its entries and its
    descriptors. *)
Theorem Feat_set_name_keeps_other_registries (self owner : loc)
    (attr : string) (w : world) (d c dc : loc) :
  (class_getattr attr_lantz_feats owner w).1 = Ret d ->
  __lantz_driver_cls__ (registries w !!! d)
  <> Some (__qualname__ (classes w !!! owner)) ->
  owner ∉ c :: mro (classes w !!! c) ->
  (class_getattr attr_lantz_feats c w).1 = Ret dc ->
  dc ∈ dom (registries w) ->
  let w' := (Feat___set_name__ self owner attr w).2 in
  lantz_feats_of c w' = lantz_feats_of c w /\
  (forall other, registered c other w' = registered c other w) /\
  (forall l, l <> self -> feats w' !! l = feats w !! l).
Proof.
  intros Hget Htag Hout Hc Hdom. cbn zeta.
  destruct (Feat_set_name_isolates self owner attr w d c dc Hget Htag Hout Hc
              Hdom) as [Hsame Hfeats].
  repeat split; try done.
  intros other. unfold registered. by rewrite Hsame.
Qed.

Lemma Feat_set_name_keeps_other_registries_witness :
  lantz_feats_of 2%positive
    (Feat___set_name__ 11%positive 3%positive "x"
       (set_classes
          (<[3%positive := mkClass "Child" [2%positive; 1%positive] None None]>
             (classes ex_parent_bound)) ex_parent_bound)).2
  = lantz_feats_of 2%positive
      (set_classes
         (<[3%positive := mkClass "Child" [2%positive; 1%positive] None None]>
            (classes ex_parent_bound)) ex_parent_bound).
Proof.
  destruct (Feat_set_name_keeps_other_registries 11%positive 3%positive "x"
              (set_classes
                 (<[3%positive := mkClass "Child" [2%positive; 1%positive] None None]>
                    (classes ex_parent_bound)) ex_parent_bound)
              2%positive 2%positive 2%positive) as (Hsame & _).
  - vm_compute. reflexivity.
  - vm_compute. discriminate.
  - refine (bool_decide_unpack _ _). vm_compute. exact I.
  - vm_compute. reflexivity.
  - refine (bool_decide_unpack _ _). vm_compute. exact I.
  - exact Hsame.
Defined.

Lemma register_keeps_lantz_feats (self owner : loc) (attr : string)
    (w : world) (c : loc) :
  _lantz_feats (classes (register attr_lantz_dictfeats self owner attr w).2 !!! c)
  = _lantz_feats (classes w !!! c).
Proof.
  destruct (class_getattr attr_lantz_dictfeats owner w) as [[d|e] w0] eqn:Hget.
  - assert ((class_getattr attr_lantz_dictfeats owner w).1 = Ret d) as Hd
      by (by rewrite Hget).
    destruct (decide (__lantz_driver_cls__ (registries w !!! d)
                      = Some (__qualname__ (classes w !!! owner))))
      as [Htag|Htag].
    + by rewrite (register_in_place _ self owner attr w d Hd Htag).
    + rewrite (register_fork _ self owner attr w d Hd Htag). simpl.
      destruct (decide (c = owner)) as [->|Hne].
      * by rewrite lookup_total_insert_eq.
      * by rewrite lookup_total_insert_ne.
  - unfold register, mbind, St_bind. rewrite Hget. simpl.
    unfold class_getattr in Hget. by destruct (omap _ _); simplify_eq.
Qed.

(** X20: when some class of the owner's resolution order has a
    [_lantz_dictfeats], binding a DictFeat never raises, there being no
    rebuild at its end: it returns, the registry the owner then sees as
    [_lantz_dictfeats] is tagged with the owner's qualified name, maps the
    name to the DictFeat and every other name to what the registry seen
    before mapped it to, the DictFeat carries the name, and no class has
    its own [_lantz_feats] attribute changed. *)
Theorem DictFeat_set_name_registers (self owner : loc) (attr : string)
    (w : world) (d : loc) :
  (class_getattr attr_lantz_dictfeats owner w).1 = Ret d ->
  let r := DictFeat___set_name__ self owner attr w in
  r.1 = Ret tt /\
  (exists d2 reg,
     (class_getattr attr_lantz_dictfeats owner r.2).1 = Ret d2 /\
     registries r.2 !! d2 = Some reg /\
     __lantz_driver_cls__ reg = Some (__qualname__ (classes w !!! owner)) /\
     entries reg !! attr = Some self /\
     forall other, other <> attr ->
       entries reg !! other = entries (registries w !!! d) !! other) /\
  d_name (dictfeats r.2 !!! self) = Some attr /\
  (forall c, _lantz_feats (classes r.2 !!! c) = _lantz_feats (classes w !!! c)).
Proof.
  intros Hget. cbn zeta.
  set (w1 := set_dictfeats
               (<[self := d_set_name attr (dictfeats w !!! self)]> (dictfeats w))
               w).
  assert (DictFeat___set_name__ self owner attr w
          = register attr_lantz_dictfeats self owner attr w1) as -> by reflexivity.
  assert ((class_getattr attr_lantz_dictfeats owner w1).1 = Ret d) as Hget1
    by (by rewrite (class_getattr_classes _ _ w1 w)).
  destruct (register_registers attr_lantz_dictfeats self owner attr w1 d Hget1)
    as (Hret & Hsee & Hentry & _ & _ & Hdict).
  split; [done|]. split; [|split].
  - eexists _, _. split; [exact Hsee|]. split; [exact Hentry|]. simpl.
    split; [done|]. split; [apply lookup_insert_eq|].
    intros other Hother. by apply lookup_insert_ne.
  - rewrite Hdict. unfold w1. simpl. by rewrite lookup_total_insert_eq.
  - intros c. by rewrite (register_keeps_lantz_feats self owner attr w1 c).
Qed.

Lemma DictFeat_set_name_registers_witness :
  (DictFeat___set_name__ 5%positive 2%positive "ch"
     (set_classes
        (<[1%positive := mkClass "Base" [] (Some 1%positive) (Some 1%positive)]>
           (classes ex_classes)) ex_classes)).1
  = Ret tt.
Proof.
  destruct (DictFeat_set_name_registers 5%positive 2%positive "ch"
              (set_classes
                 (<[1%positive := mkClass "Base" [] (Some 1%positive) (Some 1%positive)]>
                    (classes ex_classes)) ex_classes) 1%positive)
    as (Hret & _).
  - vm_compute. reflexivity.
  - exact Hret.
Defined.

(** X21: a write through a DictFeatProxy keeps to the scope of the proxy's
    instance as far as the DictFeat itself goes: whatever the name, the
    value and the outcome, the class-level values of the DictFeat, the
    overrides of every other instance, its Config entries and its list of
    sub-descriptors are as before, and so are all other DictFeat objects,
    the registries and the classes. *)
Theorem DictFeatProxy_setattr_stays_in_scope (p : DictFeatProxy.t)
    (item : string) (value : pyval) (w : world) :
  let w' := (DictFeatProxy.__setattr__ p item value w).2 in
  let dictfeat := dictfeats w !!! DictFeatProxy.proxied p in
  let dictfeat' := dictfeats w' !!! DictFeatProxy.proxied p in
  registries w' = registries w /\
  classes w' = classes w /\
  (forall l, l <> DictFeatProxy.proxied p ->
             dictfeats w' !!! l = dictfeats w !!! l) /\
  (forall s k, s <> Some (DictFeatProxy.instance p) ->
               d_config dictfeat' !! (s, k) = d_config dictfeat !! (s, k)) /\
  d_config_keys dictfeat' = d_config_keys dictfeat /\
  _subproperties dictfeat' = _subproperties dictfeat.
Proof.
  cbn zeta.
  destruct (decide (item ∈ d_config_keys (dictfeats w !!! DictFeatProxy.proxied p)))
    as [Hin|Hout].
  - rewrite DictFeatProxy_setattr_accepts, DictFeat_config_set_unfold by done.
    match goal with
    | |- context [DictFeat_on_config_set ?self ?i ?k ?v ?w0] =>
        destruct (DictFeat_on_config_set_frame self i k v w0)
          as (-> & -> & -> & _)
    end.
    simpl. rewrite lookup_total_insert_eq. repeat split; try done.
    + intros l Hl. by rewrite lookup_total_insert_ne.
    + intros s k Hs. simpl. apply lookup_insert_ne. congruence.
  - unfold DictFeatProxy.__setattr__, mbind, St_bind, get_state, raise.
    rewrite bool_decide_eq_false_2 by done. by repeat split.
Qed.

Lemma DictFeatProxy_setattr_stays_in_scope_witness :
  d_config
    (dictfeats (DictFeatProxy.__setattr__ ex_dict_proxy "units" (PStr "V")
                  ex_dict_world).2 !!! DictFeatProxy.proxied ex_dict_proxy)
    !! (None, "units")
  = d_config (dictfeats ex_dict_world !!! DictFeatProxy.proxied ex_dict_proxy)
      !! (None, "units").
Proof.
  destruct (DictFeatProxy_setattr_stays_in_scope ex_dict_proxy "units"
              (PStr "V") ex_dict_world) as (_ & _ & _ & Hscope & _).
  apply Hscope. discriminate.
Defined.

Lemma modifier_set_ext_scopes (f g : Feat) (s s' : scope) :
  (forall k, k ∈ modifiers -> modifier f s k = modifier g s' k) ->
  modifier_set f s = modifier_set g s'.
Proof.
  intros Heq. unfold modifier_set.
  rewrite !Heq; [done|..]; unfold modifiers;
    repeat (first [by left | right]).
Qed.

(** X22: an instance override combines with the class-level values of the
    modifiers the instance does not override.  When an instance without
    overrides gets a modifier assigned, its pipelines become the ones the
    class-level pipelines would be had the value been assigned at class
    level, and the class-level pipelines themselves stay as they are. *)
Theorem instance_override_pipelines (i : nat) (key : string) (value : pyval)
    (self self' : Feat) :
  key ∈ modifiers ->
  (forall k, k ∈ modifiers -> config self !! (Some i, k) = None) ->
  config_set (Some i) key value self = (Ret tt, self') ->
  exists gp sp,
    stages_of (modifier_set (store_set None key (CVal value) self) None)
    = Ret (gp, sp) /\
    config_get self' (Some i) "post_get" = CProc (rev gp) /\
    config_get self' (Some i) "pre_set" = CProc sp /\
    class_config self' "post_get" = class_config self "post_get" /\
    class_config self' "pre_set" = class_config self "pre_set".
Proof.
  intros Hkey Hnone Hset.
  pose proof Hset as Hset'.
  rewrite config_set_modifier in Hset by done.
  destruct (rebuild_returns _ _ _ Hset) as (gp & sp & Hps & Hget & Hpre).
  exists gp, sp. split; [|split; [done|split; [done|]]].
  - rewrite <- Hps. f_equal. apply modifier_set_ext_scopes.
    intros k Hk. unfold modifier, config_get, class_config.
    rewrite !config_store_set.
    destruct (decide (k = key)) as [->|Hne].
    + by rewrite !decide_True.
    + rewrite !decide_False by congruence.
      pose proof (Hnone k Hk) as Hn. unfold scope in *. by rewrite Hn.
  - assert (self' = (config_set (Some i) key value self).2) as ->
      by (by rewrite Hset').
    unfold class_config.
    by rewrite !config_set_other_scope.
Qed.

Lemma instance_override_pipelines_witness :
  exists gp sp,
    stages_of (modifier_set (store_set None "limits"
                               (CVal (PTuple [PInt 0; PInt 10])) ex_feat) None)
    = Ret (gp, sp) /\
    config_get
      (config_set (Some 1%nat) "limits" (PTuple [PInt 0; PInt 10]) ex_feat).2
      (Some 1%nat) "post_get" = CProc (rev gp) /\
    config_get
      (config_set (Some 1%nat) "limits" (PTuple [PInt 0; PInt 10]) ex_feat).2
      (Some 1%nat) "pre_set" = CProc sp /\
    class_config
      (config_set (Some 1%nat) "limits" (PTuple [PInt 0; PInt 10]) ex_feat).2
      "post_get" = class_config ex_feat "post_get" /\
    class_config
      (config_set (Some 1%nat) "limits" (PTuple [PInt 0; PInt 10]) ex_feat).2
      "pre_set" = class_config ex_feat "pre_set".
Proof.
  apply (instance_override_pipelines 1 "limits" (PTuple [PInt 0; PInt 10])
           ex_feat).
  - refine (bool_decide_unpack _ _). vm_compute. exact I.
  - intros k Hk. unfold modifiers in Hk.
    repeat (apply elem_of_cons in Hk as [->|Hk]; [vm_compute; reflexivity|]).
    by apply elem_of_nil in Hk.
  - vm_compute. reflexivity.
Defined.
